(** * base-checkin: the check-in ledger, the streak and the wallet provider

    A shallow embedding of the decision logic of [game.js].  The script
    exists in three revisions; they share the ledger and the streak word for
    word and differ in how the host frame and its wallet are found.  The
    embedding follows the current revision and adds the frame detection of
    the earlier one ([detectMiniApp]).  These parts are modelled:
    - the date and streak arithmetic: [getTodayString],
      [getYesterdayString], [calculateStreak];
    - the ledger kept in [localStorage]: [getUserData], [saveCheckIn],
      [handleCheckIn];
    - the choice of the signing backend: [detectFarcasterFrame],
      [getFarcasterProvider], [getProvider];
    - the signed message: [toHex];
    - what the screens show: [formatAddress], [renderCalendar],
      [updateDashboard], [showProfileScreen];
    - the session: [init], [handleConnect], [handleDisconnect].

    Conventions of the embedding:
    - a JavaScript string is a [string], a sequence of code units below
      256; [Array.prototype.sort] without a comparator orders strings by
      code unit, which is [String.le]; where larger code units matter
      ([toHexUnits]) a string is the list of its code units;
    - a date object is its time value in milliseconds, computed from the
      calendar date as ECMAScript does ([DayFromYear], [MakeDay]);
    - a JavaScript object used as a dictionary is a [gmap string _]; the
      names every object inherits ([inheritedName]) are neither wallet
      addresses nor dates, and a lookup of the map stands for the property
      lookup of the script on every other key;
    - the system clock, the browser window, the host SDK and the wallet are
      read through small records that are passed explicitly;
    - an exception is a value of [Error], threaded through [result]. *)

From Stdlib Require Import ZArith Lia Ascii String List Sorting.Sorted.
From stdpp Require Import base decidable option list sorting strings gmap.

Local Open Scope Z_scope.

(** ** Calendar dates as the ECMAScript date objects see them *)

Module Dates.

(** A calendar date: what [toISOString] prints before the [T]. *)
Record Civil := mkCivil { year : Z; month : Z; day : Z }.

#[global] Instance Civil_eq_dec : EqDecision Civil.
Proof. solve_decision. Defined.

Definition msPerDay : Z := 1000 * 60 * 60 * 24.

(** ECMAScript [DaysInYear], as a leap-year test. *)
Definition InLeapYear (y : Z) : bool :=
  (y mod 4 =? 0) && (negb (y mod 100 =? 0) || (y mod 400 =? 0)).

(** ECMAScript [DayFromYear]: the day number of 1 January of year [y]. *)
Definition DayFromYear (y : Z) : Z :=
  365 * (y - 1970) + (y - 1969) / 4 - (y - 1901) / 100 + (y - 1601) / 400.

Definition DaysInMonth (y m : Z) : Z :=
  match m with
  | 1 | 3 | 5 | 7 | 8 | 10 | 12 => 31
  | 4 | 6 | 9 | 11 => 30
  | 2 => if InLeapYear y then 29 else 28
  | _ => 0
  end.

(** Day within the year on which month [m] (1 to 12) starts. *)
Definition MonthStart (y m : Z) : Z :=
  let leap := if InLeapYear y then 1 else 0 in
  match m with
  | 1 => 0
  | 2 => 31
  | 3 => 59 + leap
  | 4 => 90 + leap
  | 5 => 120 + leap
  | 6 => 151 + leap
  | 7 => 181 + leap
  | 8 => 212 + leap
  | 9 => 243 + leap
  | 10 => 273 + leap
  | 11 => 304 + leap
  | _ => 334 + leap
  end.

(** ECMAScript [MakeDay] for a year and a month in range; the day of the
    month may be any number, as [setDate] needs it. *)
Definition MakeDay (c : Civil) : Z :=
  DayFromYear (year c) + MonthStart (year c) (month c) + (day c - 1).

(** ECMAScript [Day] and [TimeWithinDay] of a time value. *)
Definition Day (t : Z) : Z := t / msPerDay.

Definition TimeWithinDay (t : Z) : Z := t mod msPerDay.

(** Counts the year up while the next year starts on or before day [n]. *)
Fixpoint yearSearch (fuel : nat) (y n : Z) : Z :=
  match fuel with
  | O => y
  | S fuel' => if DayFromYear (y + 1) <=? n then yearSearch fuel' (y + 1) n else y
  end.

(** ECMAScript [YearFromTime] on day numbers: the last year that starts on
    or before day [n], reached from an estimate that lies at most 32 years
    below it for the years 0000 to 9999. *)
Definition YearFromDay (n : Z) : Z :=
  yearSearch 32 (if n <? 0 then 1970 + n / 365 else 1970 + n / 366) n.

(** ECMAScript [MonthFromTime], with months counted from 1, from the day
    within the year. *)
Definition MonthFromDay (y doy : Z) : Z :=
  if doy <? MonthStart y 2 then 1
  else if doy <? MonthStart y 3 then 2
  else if doy <? MonthStart y 4 then 3
  else if doy <? MonthStart y 5 then 4
  else if doy <? MonthStart y 6 then 5
  else if doy <? MonthStart y 7 then 6
  else if doy <? MonthStart y 8 then 7
  else if doy <? MonthStart y 9 then 8
  else if doy <? MonthStart y 10 then 9
  else if doy <? MonthStart y 11 then 10
  else if doy <? MonthStart y 12 then 11
  else 12.

(** The calendar date of day number [n]: [YearFromTime], [MonthFromTime]
    and [DateFromTime] together. *)
Definition civilFromDay (n : Z) : Civil :=
  let y := YearFromDay n in
  let doy := n - DayFromYear y in
  let m := MonthFromDay y doy in
  mkCivil y m (doy - MonthStart y m + 1).

(** The days of the years 0000 to 9999, whose year prints as four digits. *)
Definition printableDay (n : Z) : bool :=
  (DayFromYear 0 <=? n) && (n <? DayFromYear 10000).

(** The dates that a date-only ISO string of ten characters can denote. *)
Definition valid_civil (c : Civil) : bool :=
  (0 <=? year c) && (year c <=? 9999) &&
  (1 <=? month c) && (month c <=? 12) &&
  (1 <=? day c) && (day c <=? DaysInMonth (year c) (month c)).

(** The order of the calendar: year, then month, then day. *)
Definition civil_compare (c1 c2 : Civil) : comparison :=
  match year c1 ?= year c2 with
  | Eq => match month c1 ?= month c2 with
          | Eq => day c1 ?= day c2
          | r => r
          end
  | r => r
  end.

(** The extra day of a leap year. *)
Definition leapDay (y : Z) : Z := if InLeapYear y then 1 else 0.

(** *** Printing: the date part of [toISOString] *)

Definition digitChar (d : Z) : ascii := ascii_of_N (48 + Z.to_N d).

Definition pad2 (n : Z) (rest : string) : string :=
  String (digitChar (n / 10)) (String (digitChar (n mod 10)) rest).

Definition pad4 (n : Z) (rest : string) : string :=
  String (digitChar (n / 1000)) (String (digitChar (n / 100 mod 10))
    (String (digitChar (n / 10 mod 10)) (String (digitChar (n mod 10)) rest))).

(** [d.toISOString().split('T')[0]] for a date in the years 0000 to 9999. *)
Definition isoDate (c : Civil) : string :=
  pad4 (year c) (String "-" (pad2 (month c) (String "-" (pad2 (day c) EmptyString)))).

(** [new Date(t).toISOString().split('T')[0]]. *)
Definition toISODate (t : Z) : string := isoDate (civilFromDay (Day t)).

(** *** Parsing: [new Date(s)] on the date-only ISO form *)

Definition digitValue (a : ascii) : option Z :=
  let n := N_of_ascii a in
  if ((48 <=? n) && (n <=? 57))%N then Some (Z.of_N n - 48) else None.

(** The fields of a string of the shape [YYYY-MM-DD]; [None] for a month or
    a day out of range, on which [Date.parse] answers [NaN], and for the
    strings of any other shape, which the ledger never holds. *)
Definition parseCivil (s : string) : option Civil :=
  match s with
  | String y3 (String y2 (String y1 (String y0 (String h1
      (String m1 (String m0 (String h2 (String d1 (String d0 EmptyString))))))))) =>
      if Ascii.eqb h1 "-" && Ascii.eqb h2 "-" then
        y3 ← digitValue y3; y2 ← digitValue y2; y1 ← digitValue y1; y0 ← digitValue y0;
        m1 ← digitValue m1; m0 ← digitValue m0;
        d1 ← digitValue d1; d0 ← digitValue d0;
        let c := mkCivil (1000 * y3 + 100 * y2 + 10 * y1 + y0)
                         (10 * m1 + m0) (10 * d1 + d0) in
        if valid_civil c then Some c else None
      else None
  | _ => None
  end.

(** [new Date(s).getTime()]: a date-only string is midnight UTC of its day;
    [None] stands for the time value [NaN] of an invalid date. *)
Definition parseDate (s : string) : option Z :=
  c ← parseCivil s; Some (MakeDay c * msPerDay).

(** The strings that are calendar dates in the ISO form. *)
Definition isDateString (s : string) : bool :=
  match parseCivil s with Some _ => true | None => false end.

(** The day number of a date string, [new Date(s) / msPerDay]. *)
Definition dayOf (s : string) : Z :=
  match parseCivil s with Some c => MakeDay c | None => 0 end.

End Dates.

Import Dates.

(** ** The clock and the streak *)

(** The system clock: the time value of [new Date()], in milliseconds since
    the epoch, and the offset of the local time zone, ECMAScript's
    [LocalTZA(t, isUTC)]. *)
Record Clock := mkClock { now : Z; LocalTZA : Z → bool → Z }.

Definition LocalTime (c : Clock) (t : Z) : Z := t + LocalTZA c t true.

Definition UTC (c : Clock) (t : Z) : Z := t - LocalTZA c t false.

(** [d.getDate()] for a date object of time value [t]. *)
Definition getDate (c : Clock) (t : Z) : Z :=
  day (civilFromDay (Day (LocalTime c t))).

(** [d.setDate(dt)]: the new time value of the date object. *)
Definition setDate (c : Clock) (t dt : Z) : Z :=
  let t := LocalTime c t in
  let cv := civilFromDay (Day t) in
  let newDate := MakeDay (mkCivil (year cv) (month cv) dt) * msPerDay + TimeWithinDay t in
  UTC c newDate.

Definition getTodayString (c : Clock) : string := toISODate (now c).

Definition getYesterdayString (c : Clock) : string :=
  let yesterday := now c in
  let yesterday := setDate c yesterday (getDate c yesterday - 1) in
  toISODate yesterday.

(** The two calendar dates that the utilities print. *)
Definition utcToday (c : Clock) : Civil := civilFromDay (Day (now c)).

Definition localDayBefore (c : Clock) : Civil :=
  civilFromDay (Day (setDate c (now c) (getDate c (now c) - 1))).

(** A clock within the years that print as four digits, in a zone whose
    offset one local day ago is the offset now: there the day before today
    in local time is the day before today in UTC. *)
Definition steady_clock (c : Clock) : bool :=
  printableDay (Day (now c) - 1) && printableDay (Day (now c)) &&
  printableDay (Day (LocalTime c (now c))) &&
  (LocalTZA c (LocalTime c (now c) - msPerDay) false =? LocalTZA c (now c) true).

(** A clock in a zone of fixed offset [tza] milliseconds, [h] hours after
    midnight UTC of the given date. *)
Definition clockAt (y m d h tza : Z) : Clock :=
  {| now := MakeDay (mkCivil y m d) * msPerDay + h * 3600000;
     LocalTZA := λ _ _, tza |}.

Definition utcNoon (y m d : Z) : Clock := clockAt y m d 12 0.

(** London at 00:30 UTC on 28 October 2024, the day after summer time
    ended at 01:00 UTC: a local time before 02:00 of the 27th is one hour
    ahead of UTC, a later one is not. *)
Definition londonAfterSummerTime : Clock :=
  let changeover := MakeDay (mkCivil 2024 10 27) * msPerDay + 3600000 in
  {| now := MakeDay (mkCivil 2024 10 28) * msPerDay + 1800000;
     LocalTZA := λ t isUTC,
       if isUTC then (if t <? changeover then 3600000 else 0)
       else (if t <? changeover + 3600000 then 3600000 else 0) |}.

(** [arr.sort()] without a comparator, on an array of strings. *)
Definition sort (l : list string) : list string := merge_sort String.le l.

(** [Math.floor((new Date(current) - new Date(next)) / msPerDay)]; [None] is
    [NaN]. *)
Definition diffDays (current next : string) : option Z :=
  a ← parseDate current; b ← parseDate next; Some ((a - b) / msPerDay).

(** The [for] loop of [calculateStreak]: [sortedDates] is the part of the
    array from index [i] on, [streak] the counter so far. *)
Fixpoint streakLoop (sortedDates : list string) (streak : nat) : nat :=
  match sortedDates with
  | current :: (next :: _) as rest =>
      if decide (diffDays current next = Some 1)
      then streakLoop rest (S streak)
      else streak
  | _ => streak
  end.

Definition calculateStreak (c : Clock) (dates : list string) : nat :=
  if (length dates =? 0)%nat then 0%nat
  else
    let sortedDates := reverse (sort dates) in
    let today := getTodayString c in
    let yesterday := getYesterdayString c in
    match sortedDates with
    | first :: _ =>
        if bool_decide (first ≠ today) && bool_decide (first ≠ yesterday)
        then 0%nat
        else streakLoop sortedDates 1
    | [] => 0%nat
    end.

(** The reference notion of the specification: the maximal run of
    consecutive days that ends at day [top] within [days] has length [n]. *)
Definition is_streak (days : list Z) (top : Z) (n : nat) : Prop :=
  (∀ k : nat, (k < n)%nat → top - Z.of_nat k ∈ days) ∧
  top - Z.of_nat n ∉ days.

(** [later a b]: date [a] comes after date [b]. *)
Definition later (a b : Civil) : Prop := MakeDay b < MakeDay a.

Definition not_before (a b : Civil) : Prop := MakeDay b <= MakeDay a.

(** ** The ledger in [localStorage] *)

Record UserData := mkUserData {
  dates : list string;
  streak : nat;
  total : nat;
  lastDate : option string;
  signatures : gmap string string
}.

Definition defaultUserData : UserData :=
  {| dates := []; streak := 0; total := 0; lastDate := None; signatures := ∅ |}.

(** The text kept under [STORAGE_KEY], up to what [JSON.parse] makes of it:
    the empty string, a text that [JSON.parse] rejects, the text [null],
    which parses to a value without properties, or the text that
    [JSON.stringify] wrote for an object of records.  Texts that parse to
    anything else (a number, a string, an array, an object with a member
    that is not a record) are not covered. *)
Inductive Stored :=
| EmptyText
| BadText
| NullText
| JsonText (allData : gmap string UserData).

Inductive Error :=
| SyntaxError
| TypeError
| ErrorMsg (message : string).

Inductive result (A : Type) :=
| Ok (a : A)
| Throw (e : Error).
Arguments Ok {A} a.
Arguments Throw {A} e.

#[global] Instance result_ret : MRet result := λ A a, Ok a.
#[global] Instance result_bind : MBind result := λ A B f r,
  match r with Ok a => f a | Throw e => Throw e end.

Definition lowerChar (a : ascii) : ascii :=
  let n := N_of_ascii a in
  if ((65 <=? n) && (n <=? 90))%N then ascii_of_N (n + 32) else a.

(** [s.toLowerCase()] on the ASCII letters. *)
Fixpoint toLowerCase (s : string) : string :=
  match s with
  | EmptyString => EmptyString
  | String a s' => String (lowerChar a) (toLowerCase s')
  end.

(** [JSON.parse(localStorage.getItem(STORAGE_KEY) || '{}')] as the object
    whose members are read next: the argument is what [getItem] answers,
    [None] for [null].  The parser throws on a text it rejects; the text
    [null] parses, and the read of a member of [null] that follows in
    [getUserData] and in [saveCheckIn] throws. *)
Definition parseAllData (item : option Stored) : result (gmap string UserData) :=
  match item with
  | None | Some EmptyText => Ok ∅
  | Some BadText => Throw SyntaxError
  | Some NullText => Throw TypeError
  | Some (JsonText allData) => Ok allData
  end.

(** The names in lower case that every object inherits.  The script reads
    a record with [allData[key]], which follows the prototype chain: for
    one of these names that is not a member of the stored object it finds
    the inherited object, which is no record.  The map lookup of this
    development stands for [allData[key]] on every other key; wallet
    addresses and date strings are such keys, the free text of the
    parameter [user] need not be. *)
Definition inheritedName (key : string) : bool :=
  bool_decide (key = "constructor"%string) || bool_decide (key = "__proto__"%string).

Definition getUserData (wallet : string) (item : option Stored) : result UserData :=
  allData ← parseAllData item;
  mret (default defaultUserData (allData !! toLowerCase wallet)).

(** [saveCheckIn] reads the clock inside [calculateStreak]; the result is
    the new content of [STORAGE_KEY]. *)
Definition saveCheckIn (c : Clock) (wallet date signature : string)
    (item : option Stored) : result (option Stored) :=
  allData ← parseAllData item;
  let walletKey := toLowerCase wallet in
  let userData := default defaultUserData (allData !! walletKey) in
  let dates1 :=
    if bool_decide (date ∈ dates userData) then dates userData
    else sort (dates userData ++ [date]) in
  let userData1 :=
    {| dates := dates1;
       streak := calculateStreak c dates1;
       total := length dates1;
       lastDate := Some date;
       signatures := <[date := signature]> (signatures userData) |} in
  mret (Some (JsonText (<[walletKey := userData1]> allData))).

(** The state that [handleCheckIn] reads and writes. *)
Record App := mkApp {
  currentWallet : option string;
  localStorage : option Stored
}.

(** How a click on the check-in button ends. *)
Inductive CheckInOutcome :=
| NotConnected        (* no current wallet: silent return *)
| AlreadyCheckedIn    (* alert: You have already checked in today! *)
| CheckInFailed       (* alert: Check-in failed: ... *)
| CheckedIn           (* the record was saved *)
| Crashed (e : Error) (* an exception left the handler *).

(** [handleCheckIn].  [atClick] is the clock when the handler starts,
    [atSave] the clock when the signature has arrived; [signed] is what the
    signing block produced: [None] when it threw (no provider, request
    refused), otherwise the value of [personal_sign]. *)
Definition handleCheckIn (atClick atSave : Clock) (signed : option string)
    (app : App) : CheckInOutcome * App :=
  match currentWallet app with
  | None => (NotConnected, app)
  | Some wallet =>
      if decide (wallet = EmptyString) then (NotConnected, app)
      else
        let today := getTodayString atClick in
        match getUserData wallet (localStorage app) with
        | Throw e => (Crashed e, app)
        | Ok userData =>
            if bool_decide (today ∈ dates userData) then (AlreadyCheckedIn, app)
            else
              match signed with
              | None => (CheckInFailed, app)
              | Some signature =>
                  if decide (signature = EmptyString) then (CheckInFailed, app)
                  else
                    match saveCheckIn atSave wallet today signature (localStorage app) with
                    | Ok item => (CheckedIn, {| currentWallet := currentWallet app;
                                                localStorage := item |})
                    | Throw _ => (CheckInFailed, app)
                    end
              end
        end
  end.

(** A sequence of [saveCheckIn] calls, each with the clock of its moment. *)
Fixpoint saveAll (calls : list (Clock * string * string * string))
    (item : option Stored) : result (option Stored) :=
  match calls with
  | [] => mret item
  | (c, wallet, date, signature) :: calls' =>
      item1 ← saveCheckIn c wallet date signature item;
      saveAll calls' item1
  end.

(** The invariant of a record: the total counts the dates, the dates are
    distinct and in ascending order, and the signatures are keyed by exactly
    the dates. *)
Definition record_inv (r : UserData) : Prop :=
  total r = length (dates r) ∧
  NoDup (dates r) ∧
  StronglySorted String.le (dates r) ∧
  dom (signatures r) = list_to_set (dates r).

Definition upperChar (a : ascii) : ascii :=
  let n := N_of_ascii a in
  if ((97 <=? n) && (n <=? 122))%N then ascii_of_N (n - 32) else a.

(** Two characters that are equal or the two cases of one letter. *)
Definition sameLetter (a b : ascii) : bool :=
  bool_decide (a = b) || bool_decide (a = upperChar b) || bool_decide (b = upperChar a).

(** Two strings that differ only in letter case. *)
Fixpoint differOnlyInCase (s1 s2 : string) : bool :=
  match s1, s2 with
  | EmptyString, EmptyString => true
  | String a s1', String b s2' => sameLetter a b && differOnlyInCase s1' s2'
  | _, _ => false
  end.

(** ** The frame detection and the wallet provider *)

Section Provider.

(** The wallet backends are opaque objects. *)
Context {Provider : Type}.

(** Reading [window.top] from a frame of another origin may throw. *)
Inductive TopAccess :=
| TopThrows
| TopIsSelf
| TopIsOther.

(** What [sdk.isInMiniApp()] does within the two seconds it is given. *)
Inductive MiniAppQuery :=
| QueryThrows
| QueryTimesOut
| QueryAnswers (b : bool).

Record Wallet := mkWallet { ethProvider : option Provider }.

Record Sdk := mkSdk {
  isInMiniApp : option MiniAppQuery;
  wallet : option Wallet
}.

(** What awaiting the SDK gives: an exception, or the SDK object if any. *)
Inductive SdkLoad :=
| SdkThrows
| SdkLoaded (sdk : option Sdk).

Record Window := mkWindow {
  top : TopAccess;
  searchParams : list (string * string);
  ethereum : option Provider;
  loadedSdk : SdkLoad
}.

Definition has (name : string) (params : list (string * string)) : bool :=
  bool_decide (name ∈ params.*1).

Definition detectFarcasterFrame (w : Window) : bool :=
  match top w with
  | TopThrows => true
  | TopIsOther => true
  | TopIsSelf => has "fc_frame" (searchParams w) || has "fid" (searchParams w)
  end.

(** The earlier revision asks the SDK first and falls back to the frame
    test. *)
Definition detectMiniApp (w : Window) : bool :=
  let fallback :=
    match top w with
    | TopThrows => true
    | TopIsOther => true
    | TopIsSelf => false
    end in
  match loadedSdk w with
  | SdkLoaded (Some sdk) =>
      match isInMiniApp sdk with
      | Some (QueryAnswers b) => b
      | _ => fallback
      end
  | _ => fallback
  end.

Definition getFarcasterProvider (isInFarcasterFrame : bool) (w : Window)
    : option Provider :=
  if negb isInFarcasterFrame then None
  else
    match loadedSdk w with
    | SdkThrows => None
    | SdkLoaded None => None
    | SdkLoaded (Some sdk) =>
        match wallet sdk with
        | Some wl =>
            match ethProvider wl with
            | Some p => Some p
            | None => None
            end
        | None => None
        end
    end.

Definition installWalletMessage : string :=
  "Please install MetaMask or Rabby wallet.".

Definition noWalletMessage : string :=
  "No wallet found. Please try again in Warpcast.".

Definition getProvider (isInFarcasterFrame : bool) (w : Window)
    : result Provider :=
  if negb isInFarcasterFrame then
    match ethereum w with
    | Some injected => Ok injected
    | None => Throw (ErrorMsg installWalletMessage)
    end
  else
    match getFarcasterProvider isInFarcasterFrame w with
    | Some farcasterProvider => Ok farcasterProvider
    | None =>
        match ethereum w with
        | Some injected => Ok injected
        | None => Throw (ErrorMsg noWalletMessage)
        end
    end.

End Provider.

Arguments Wallet : clear implicits.
Arguments Sdk : clear implicits.
Arguments SdkLoad : clear implicits.
Arguments Window : clear implicits.

(** ** The message that is signed *)

(** One digit of [n.toString(16)]. *)
Definition hexDigit (n : N) : ascii :=
  ascii_of_N (if (n <? 10)%N then 48 + n else 87 + n).

(** [str.charCodeAt(i).toString(16).padStart(2, '0')] for a code unit
    below 256, which is every character of a [string]. *)
Definition hexByte (a : ascii) : string :=
  let n := N_of_ascii a in
  String (hexDigit (n / 16)) (String (hexDigit (n mod 16)) EmptyString).

(** The loop of [toHex]: [str] is what is left of the string, [result] the
    text so far. *)
Fixpoint toHexLoop (str result : string) : string :=
  match str with
  | EmptyString => result
  | String a str' => toHexLoop str' (result +:+ hexByte a)
  end.

Definition toHex (str : string) : string := toHexLoop str "0x".

(** A string of the script is a sequence of 16-bit code units, and [toHex]
    takes any of them.  The strings of this development hold the code
    units below 256 only, so [toHex] above is the function of the script on
    those; [toHexUnits] is the same loop on all code units. *)
Definition codeUnits (str : string) : list N :=
  N_of_ascii <$> list_ascii_of_string str.

(** [u.toString(16)] for a code unit [u]: one to four digits. *)
Definition toString16 (u : N) : string :=
  (if u <? 16 then String (hexDigit u) EmptyString
   else if u <? 256 then
     String (hexDigit (u / 16)) (String (hexDigit (u mod 16)) EmptyString)
   else if u <? 4096 then
     String (hexDigit (u / 256))
       (String (hexDigit (u / 16 mod 16)) (String (hexDigit (u mod 16)) EmptyString))
   else
     String (hexDigit (u / 4096 mod 16))
       (String (hexDigit (u / 256 mod 16))
          (String (hexDigit (u / 16 mod 16))
             (String (hexDigit (u mod 16)) EmptyString))))%N.

(** [s.padStart(2, '0')]. *)
Definition padStart2 (s : string) : string :=
  match String.length s with
  | 0%nat => "00"
  | 1%nat => String "0" s
  | _ => s
  end.

Fixpoint toHexUnitsLoop (units : list N) (result : string) : string :=
  match units with
  | [] => result
  | u :: units' => toHexUnitsLoop units' (result +:+ padStart2 (toString16 u))
  end.

Definition toHexUnits (units : list N) : string := toHexUnitsLoop units "0x".

(** The template literal of [handleCheckIn]. *)
Definition checkInMessage (wallet today : string) : string :=
  "Base Check-In | " +:+ wallet +:+ " | " +:+ today.

(** ** What the screens show *)

(** [address.slice(0, 6)] and [address.slice(-4)] around three dots. *)
Definition formatAddress (address : string) : string :=
  if decide (address = EmptyString) then EmptyString
  else substring 0 6 address +:+ "..." +:+
       substring (String.length address - 4) 4 address.

(** One cell of the calendar: the date it stands for, the number it shows
    and its two marks. *)
Record CalendarDay := mkCalendarDay {
  dateStr : string;
  dayLabel : Z;
  checked : bool;
  isToday : bool
}.

(** [renderCalendar]: the cells appended to the container, in order. *)
Definition renderCalendar (c : Clock) (checkedDates : list string)
    : list CalendarDay :=
  let today := now c in
  let startDate := setDate c today (getDate c today - 34) in
  (λ i,
     let date := setDate c startDate (getDate c startDate + i) in
     let dateStr := toISODate date in
     {| dateStr := dateStr;
        dayLabel := getDate c date;
        checked := bool_decide (dateStr ∈ checkedDates);
        isToday := bool_decide (dateStr = getTodayString c) |}) <$> seqZ 0 35.

(** What [updateDashboard] writes into the page. *)
Record Dashboard := mkDashboard {
  streakValue : nat;
  totalValue : nat;
  walletAddress : string;
  statusText : string;
  checkinBtnText : string;
  checkinBtnDisabled : bool;
  calendarGrid : list CalendarDay
}.

(** [updateDashboard]: [None] when it returns at once for want of a wallet. *)
Definition updateDashboard (c : Clock) (app : App) : result (option Dashboard) :=
  match currentWallet app with
  | None => mret None
  | Some wallet =>
      if decide (wallet = EmptyString) then mret None
      else
        userData ← getUserData wallet (localStorage app);
        let today := getTodayString c in
        let checkedInToday := bool_decide (today ∈ dates userData) in
        mret (Some
          {| streakValue := streak userData;
             totalValue := total userData;
             walletAddress := formatAddress wallet;
             statusText := if checkedInToday then "Checked in today!"
                           else "Not checked in yet";
             checkinBtnText := if checkedInToday then "Already Checked In"
                               else "Check In Now";
             checkinBtnDisabled := checkedInToday;
             calendarGrid := renderCalendar c (dates userData) |})
  end.

(** What [showProfileScreen] writes into the page. *)
Record Profile := mkProfile {
  profileWallet : string;
  profileStreak : nat;
  profileTotal : nat;
  profileLastDate : string;
  profileCalendar : list CalendarDay
}.

Definition showProfileScreen (c : Clock) (wallet : string)
    (item : option Stored) : result Profile :=
  userData ← getUserData wallet item;
  mret {| profileWallet := wallet;
          profileStreak := streak userData;
          profileTotal := total userData;
          profileLastDate :=
            match lastDate userData with
            | Some d => if decide (d = EmptyString) then "Never" else d
            | None => "Never"
            end;
          profileCalendar := renderCalendar c (dates userData) |}.

(** What the saves keep besides [record_inv]: the last date is one of the
    dates, and is missing only from a record without dates; the streak does
    not exceed the total. *)
Definition lastDate_inv (r : UserData) : Prop :=
  match lastDate r with
  | Some d => d ∈ dates r
  | None => dates r = []
  end.

(** A zone whose offset is [tza] milliseconds at every instant. *)
Definition fixed_zone (c : Clock) (tza : Z) : Prop :=
  ∀ t isUTC, LocalTZA c t isUTC = tza.

(** ** The session: loading the page, connecting and disconnecting *)

Section Session.

Context {Provider : Type}.

(** The screen that carries the class [active]. *)
Inductive Screen :=
| ConnectScreen
| DashboardScreen
| ProfileScreen.

(** What the host says about its user. *)
Record FrameUser := mkFrameUser {
  connectedAddress : option string;
  verifiedAddresses : option (list string)
}.

Record FrameContext := mkFrameContext { user : option FrameUser }.

(** The variables of the script and the two items it keeps in
    [localStorage]: [pageApp] holds [currentWallet] and the item of
    [STORAGE_KEY], [connected_wallet] is the item of that name. *)
Record Session := mkSession {
  pageApp : App;
  connected_wallet : option string;
  currentProvider : option Provider;
  isConnected : bool;
  screen : Screen
}.

(** A string that an [if] takes for true. *)
Definition truthy (o : option string) : option string :=
  match o with
  | Some s => if decide (s = EmptyString) then None else Some s
  | None => None
  end.

(** [params.get(name)]: the value of the first parameter of that name. *)
Fixpoint get (name : string) (params : list (string * string)) : option string :=
  match params with
  | [] => None
  | (n, v) :: params' => if decide (n = name) then Some v else get name params'
  end.

Definition showScreen (scr : Screen) (s : Session) : Session :=
  {| pageApp := pageApp s; connected_wallet := connected_wallet s;
     currentProvider := currentProvider s; isConnected := isConnected s;
     screen := scr |}.

(** [showDashboard]: the dashboard is made the active screen before
    [updateDashboard] reads the store; the second component is the
    exception that leaves it, if any. *)
Definition showDashboard (c : Clock) (s : Session) : Session * option Error :=
  let s1 := showScreen DashboardScreen s in
  match updateDashboard c (pageApp s1) with
  | Ok _ => (s1, None)
  | Throw e => (s1, Some e)
  end.

(** The assignments that follow once an address is known:
    [currentWallet], [currentProvider], the item [connected_wallet] and
    [isConnected]. *)
Definition connected (address : string) (provider : option Provider)
    (s : Session) : Session :=
  {| pageApp := {| currentWallet := Some address;
                   localStorage := localStorage (pageApp s) |};
     connected_wallet := Some address;
     currentProvider := provider;
     isConnected := true;
     screen := screen s |}.

Definition handleDisconnect (s : Session) : Session :=
  {| pageApp := {| currentWallet := None;
                   localStorage := localStorage (pageApp s) |};
     connected_wallet := None;
     currentProvider := None;
     isConnected := false;
     screen := ConnectScreen |}.

(** [currentProvider = await getProvider()] inside its own [try]. *)
Definition tryProvider (isInFarcasterFrame : bool) (w : Window Provider)
    (s : Session) : option Provider :=
  match getProvider isInFarcasterFrame w with
  | Ok p => Some p
  | Throw _ => currentProvider s
  end.

(** [init] of the current revision.  [context] is what the race between
    [getFarcasterContext()] and its two seconds gives. *)
Definition init (c : Clock) (w : Window Provider)
    (context : option FrameContext) (s : Session) : Session :=
  let isInFarcasterFrame := detectFarcasterFrame w in
  match truthy (get "user" (searchParams w)) with
  | Some profileUser =>
      match showProfileScreen c profileUser (localStorage (pageApp s)) with
      | Ok _ => showScreen ProfileScreen s
      | Throw _ => showScreen ConnectScreen s
      end
  | None =>
      match truthy (connected_wallet s) with
      | Some savedWallet =>
          let s1 :=
            {| pageApp := {| currentWallet := Some savedWallet;
                             localStorage := localStorage (pageApp s) |};
               connected_wallet := connected_wallet s;
               currentProvider := tryProvider isInFarcasterFrame w s;
               isConnected := isConnected s;
               screen := screen s |} in
          match showDashboard c s1 with
          | (s2, None) => s2
          | (s2, Some _) => showScreen ConnectScreen s2
          end
      | None =>
          let address :=
            if isInFarcasterFrame then
              match context with
              | Some ctx =>
                  match user ctx with
                  | Some u =>
                      match truthy (connectedAddress u) with
                      | Some a => Some a
                      | None =>
                          match verifiedAddresses u with
                          | Some l => truthy (head l)
                          | None => None
                          end
                      end
                  | None => None
                  end
              | None => None
              end
            else None in
          match address with
          | Some address =>
              let s1 :=
                connected address (tryProvider isInFarcasterFrame w s) s in
              match showDashboard c s1 with
              | (s2, None) => s2
              | (s2, Some _) => showScreen ConnectScreen s2
              end
          | None => showScreen ConnectScreen s
          end
      end
  end.

(** The text of the alert of [handleConnect]. *)
Inductive ConnectAlert :=
| InstallToContinue     (* Please install MetaMask or Rabby wallet to continue. *)
| MessageOf (e : Error) (* the message of the exception *).

(** [handleConnect] of the current revision.  [context] is what
    [getFarcasterContext()] gives, [accounts] what the request
    [eth_requestAccounts] gives; a rejection of that request carries its
    message, the fixed text [Failed to connect wallet.] when it has none. *)
Definition handleConnect (c : Clock) (w : Window Provider)
    (context : option FrameContext) (accounts : result (list string))
    (s : Session) : option ConnectAlert * Session :=
  let isInFarcasterFrame := detectFarcasterFrame w in
  let alert (e : Error) (s' : Session) :=
    (Some (match ethereum w with
           | None => if isInFarcasterFrame then MessageOf e else InstallToContinue
           | Some _ => MessageOf e
           end), s') in
  let finish (s' : Session) :=
    match showDashboard c s' with
    | (s2, None) => (None, s2)
    | (s2, Some e) => alert e s2
    end in
  let address :=
    if isInFarcasterFrame then
      match context with
      | Some ctx =>
          match user ctx with
          | Some u =>
              match truthy (connectedAddress u) with
              | Some a => Some a
              | None =>
                  match verifiedAddresses u with
                  | Some (a :: _) => Some a
                  | _ => None
                  end
              end
          | None => None
          end
      | None => None
      end
    else None in
  match address with
  | Some address =>
      let s1 :=
        {| pageApp := {| currentWallet := Some address;
                         localStorage := localStorage (pageApp s) |};
           connected_wallet := connected_wallet s;
           currentProvider := currentProvider s;
           isConnected := isConnected s;
           screen := screen s |} in
      match getProvider isInFarcasterFrame w with
      | Throw e => alert e s1
      | Ok provider => finish (connected address (Some provider) s1)
      end
  | None =>
      match getProvider isInFarcasterFrame w with
      | Throw e => alert e s
      | Ok provider =>
          match accounts with
          | Throw e => alert e s
          | Ok [] => (None, s)
          | Ok (account :: _) => finish (connected account (Some provider) s)
          end
      end
  end.

(** A page that is loaded again: the variables start over, the two items
    of [localStorage] are kept; [scr] is the screen that the markup shows. *)
Definition reload (scr : Screen) (s : Session) : Session :=
  {| pageApp := {| currentWallet := None;
                   localStorage := localStorage (pageApp s) |};
     connected_wallet := connected_wallet s;
     currentProvider := None;
     isConnected := false;
     screen := scr |}.

End Session.

Arguments Session : clear implicits.

(** * Facts *)

(** Settles a closed decidable proposition by evaluation. *)
Ltac by_compute :=
  match goal with
  | |- ?P => apply (bool_decide_unpack P); vm_compute; exact I
  end.

(** ** Dates: printing, parsing and the order of ISO strings *)

Section DateFacts.

Example isoDate_leap_day : isoDate (mkCivil 2024 2 29) = "2024-02-29"%string.
Proof. reflexivity. Qed.

Example parseDate_epoch : parseDate "1970-01-01" = Some 0.
Proof. reflexivity. Qed.

Example parseDate_2024 : parseDate "2024-03-01" = Some (19783 * msPerDay).
Proof. reflexivity. Qed.

Example parseDate_not_a_day : parseDate "2023-02-29" = None.
Proof. reflexivity. Qed.

Lemma valid_civil_spec c :
  valid_civil c = true ↔
  0 <= year c <= 9999 ∧ 1 <= month c <= 12 ∧
  1 <= day c <= DaysInMonth (year c) (month c).
Proof.
  unfold valid_civil. rewrite !andb_true_iff, !Z.leb_le. tauto.
Qed.

Lemma month_cases m :
  1 <= m <= 12 →
  m = 1 ∨ m = 2 ∨ m = 3 ∨ m = 4 ∨ m = 5 ∨ m = 6 ∨
  m = 7 ∨ m = 8 ∨ m = 9 ∨ m = 10 ∨ m = 11 ∨ m = 12.
Proof. lia. Qed.

Lemma digit_cases d :
  0 <= d <= 9 →
  d = 0 ∨ d = 1 ∨ d = 2 ∨ d = 3 ∨ d = 4 ∨ d = 5 ∨ d = 6 ∨ d = 7 ∨ d = 8 ∨ d = 9.
Proof. lia. Qed.

Lemma N_of_digitChar d :
  0 <= d <= 9 → N_of_ascii (digitChar d) = (48 + Z.to_N d)%N.
Proof.
  intros Hd. apply digit_cases in Hd.
  repeat (destruct Hd as [-> | Hd]; [reflexivity |]). subst d. reflexivity.
Qed.

Lemma digitValue_digitChar d : 0 <= d <= 9 → digitValue (digitChar d) = Some d.
Proof.
  intros Hd. apply digit_cases in Hd.
  repeat (destruct Hd as [-> | Hd]; [reflexivity |]). subst d. reflexivity.
Qed.

Lemma compare_digitChar a b :
  0 <= a <= 9 → 0 <= b <= 9 →
  Ascii.compare (digitChar a) (digitChar b) = (a ?= b).
Proof.
  intros Ha Hb. unfold Ascii.compare. rewrite !N_of_digitChar by done.
  destruct (Z.compare_spec a b) as [-> | Hlt | Hgt].
  - apply N.compare_refl.
  - apply N.compare_lt_iff. lia.
  - apply N.compare_gt_iff. lia.
Qed.

Lemma DaysInMonth_le_31 y m : DaysInMonth y m <= 31.
Proof.
  unfold DaysInMonth.
  repeat match goal with
         | |- context [match ?x with _ => _ end] => destruct x
         end; lia.
Qed.

Lemma parseCivil_isoDate c : valid_civil c = true → parseCivil (isoDate c) = Some c.
Proof.
  intros Hv. pose proof Hv as Hv'. apply valid_civil_spec in Hv' as (Hy & Hm & Hd).
  pose proof (DaysInMonth_le_31 (year c) (month c)) as H31.
  unfold isoDate, pad4, pad2, parseCivil.
  rewrite !digitValue_digitChar by (Z.div_mod_to_equations; lia).
  cbn [mbind option_bind].
  replace (mkCivil _ _ _) with c.
  - by rewrite Hv.
  - destruct c as [y m d]; cbn [year month day] in *.
    f_equal; Z.div_mod_to_equations; lia.
Qed.

Lemma parseDate_isoDate c :
  valid_civil c = true → parseDate (isoDate c) = Some (MakeDay c * msPerDay).
Proof. intros Hv. unfold parseDate. by rewrite parseCivil_isoDate. Qed.

Lemma digitValue_Some a d :
  digitValue a = Some d → 0 <= d <= 9 ∧ digitChar d = a.
Proof.
  intros H.
  destruct a as [[] [] [] [] [] [] [] []]; vm_compute in H; try discriminate H;
    injection H as <-; (split; [lia | reflexivity]).
Qed.

(** A string that parses is the print of its date. *)
Lemma parseCivil_Some s c :
  parseCivil s = Some c → valid_civil c = true ∧ isoDate c = s.
Proof.
  unfold parseCivil.
  destruct s as [|c3 [|c2 [|c1 [|c0 [|h1 [|n1 [|n0 [|h2 [|e1 [|e0 [| ? ?]]]]]]]]]]];
    try done.
  destruct (Ascii.eqb_spec h1 "-") as [-> |]; [| done].
  destruct (Ascii.eqb_spec h2 "-") as [-> |]; [| done].
  cbn [andb].
  destruct (digitValue c3) as [y3 |] eqn:H3; [| done].
  destruct (digitValue c2) as [y2 |] eqn:H2; [| done].
  destruct (digitValue c1) as [y1 |] eqn:H1; [| done].
  destruct (digitValue c0) as [y0 |] eqn:H0; [| done].
  destruct (digitValue n1) as [m1 |] eqn:Hm1; [| done].
  destruct (digitValue n0) as [m0 |] eqn:Hm0; [| done].
  destruct (digitValue e1) as [d1 |] eqn:Hd1; [| done].
  destruct (digitValue e0) as [d0 |] eqn:Hd0; [| done].
  cbn [mbind option_bind].
  destruct (valid_civil _) eqn:Hv; [| done].
  intros [= <-]. split; [done |].
  apply digitValue_Some in H3 as [? <-], H2 as [? <-], H1 as [? <-], H0 as [? <-].
  apply digitValue_Some in Hm1 as [? <-], Hm0 as [? <-], Hd1 as [? <-], Hd0 as [? <-].
  unfold isoDate, pad4, pad2. cbn [year month day].
  repeat f_equal; Z.div_mod_to_equations; lia.
Qed.

Lemma isDateString_spec s :
  isDateString s = true ↔ ∃ c, valid_civil c = true ∧ s = isoDate c.
Proof.
  unfold isDateString. split.
  - destruct (parseCivil s) as [c |] eqn:Hp; [| done].
    apply parseCivil_Some in Hp as [Hv <-]. by exists c.
  - intros (c & Hv & ->). by rewrite parseCivil_isoDate.
Qed.

Lemma dayOf_isoDate c : valid_civil c = true → dayOf (isoDate c) = MakeDay c.
Proof. intros Hv. unfold dayOf. by rewrite parseCivil_isoDate. Qed.

Ltac head_compare :=
  repeat match goal with
         | |- match ?a ?= ?b with _ => _ end = _ =>
             destruct (Z.compare_spec a b); cbv iota
         | |- _ = match ?a ?= ?b with _ => _ end =>
             destruct (Z.compare_spec a b); cbv iota
         end.

Lemma pad2_compare a b r1 r2 :
  0 <= a <= 99 → 0 <= b <= 99 →
  String.compare (pad2 a r1) (pad2 b r2) =
  match a ?= b with Eq => String.compare r1 r2 | r => r end.
Proof.
  intros Ha Hb. unfold pad2. cbn [String.compare].
  rewrite !compare_digitChar by (Z.div_mod_to_equations; lia).
  head_compare; try reflexivity; exfalso; Z.div_mod_to_equations; lia.
Qed.

Lemma pad4_compare a b r1 r2 :
  0 <= a <= 9999 → 0 <= b <= 9999 →
  String.compare (pad4 a r1) (pad4 b r2) =
  match a ?= b with Eq => String.compare r1 r2 | r => r end.
Proof.
  intros Ha Hb. unfold pad4. cbn [String.compare].
  rewrite !compare_digitChar by (Z.div_mod_to_equations; lia).
  head_compare; try reflexivity; exfalso; Z.div_mod_to_equations; lia.
Qed.

Lemma compare_isoDate c1 c2 :
  valid_civil c1 = true → valid_civil c2 = true →
  String.compare (isoDate c1) (isoDate c2) = civil_compare c1 c2.
Proof.
  intros (Hy1 & Hm1 & Hd1)%valid_civil_spec (Hy2 & Hm2 & Hd2)%valid_civil_spec.
  pose proof (DaysInMonth_le_31 (year c1) (month c1)).
  pose proof (DaysInMonth_le_31 (year c2) (month c2)).
  unfold isoDate, civil_compare.
  rewrite pad4_compare by done. destruct (year c1 ?= year c2); try done.
  cbn [String.compare]. change (Ascii.compare "-" "-") with Eq. cbv iota.
  rewrite pad2_compare by lia. destruct (month c1 ?= month c2); try done.
  cbn [String.compare]. change (Ascii.compare "-" "-") with Eq. cbv iota.
  rewrite pad2_compare by lia. by destruct (day c1 ?= day c2).
Qed.

Lemma InLeapYear_spec y :
  InLeapYear y = true ↔ y mod 4 = 0 ∧ (y mod 100 ≠ 0 ∨ y mod 400 = 0).
Proof.
  unfold InLeapYear.
  rewrite andb_true_iff, orb_true_iff, negb_true_iff, !Z.eqb_eq, Z.eqb_neq. tauto.
Qed.

Lemma DayFromYear_succ y : DayFromYear (y + 1) = DayFromYear y + 365 + leapDay y.
Proof.
  unfold DayFromYear, leapDay.
  destruct (InLeapYear y) eqn:Hl.
  - apply InLeapYear_spec in Hl. Z.div_mod_to_equations. lia.
  - apply not_true_iff_false in Hl. rewrite InLeapYear_spec in Hl.
    Z.div_mod_to_equations. lia.
Qed.

Lemma DayFromYear_mono y1 y2 : y1 <= y2 → DayFromYear y1 <= DayFromYear y2.
Proof. intros Hle. unfold DayFromYear. Z.div_mod_to_equations. lia. Qed.

Lemma leapDay_range y : 0 <= leapDay y <= 1.
Proof. unfold leapDay. destruct (InLeapYear y); lia. Qed.

(** A valid date lies within its year. *)
Lemma day_in_year c :
  valid_civil c = true →
  0 <= MonthStart (year c) (month c) + (day c - 1) <= 364 + leapDay (year c).
Proof.
  intros (_ & Hm & Hd)%valid_civil_spec. revert Hd.
  unfold MonthStart, DaysInMonth, leapDay.
  apply month_cases in Hm.
  repeat (destruct Hm as [-> | Hm]; [destruct (InLeapYear (year c)); lia |]).
  rewrite Hm. destruct (InLeapYear (year c)); lia.
Qed.

Lemma MakeDay_lt_year c1 c2 :
  valid_civil c1 = true → valid_civil c2 = true →
  year c1 < year c2 → MakeDay c1 < MakeDay c2.
Proof.
  intros Hv1%day_in_year Hv2%day_in_year Hlt. unfold MakeDay.
  pose proof (DayFromYear_succ (year c1)).
  pose proof (DayFromYear_mono (year c1 + 1) (year c2)). lia.
Qed.

Lemma MakeDay_lt_month c1 c2 :
  valid_civil c1 = true → valid_civil c2 = true →
  year c1 = year c2 → month c1 < month c2 → MakeDay c1 < MakeDay c2.
Proof.
  intros (_ & Hm1 & Hd1)%valid_civil_spec (_ & Hm2 & Hd2)%valid_civil_spec Hy Hlt.
  unfold MakeDay. rewrite <- Hy in *. revert Hd1 Hd2.
  unfold MonthStart, DaysInMonth.
  apply month_cases in Hm1. apply month_cases in Hm2.
  destruct (InLeapYear (year c1));
    repeat (destruct Hm1 as [Hm1 | Hm1]; [rewrite Hm1 in *; clear Hm1 |]);
    try (rewrite Hm1 in *; clear Hm1);
    repeat (destruct Hm2 as [Hm2 | Hm2]; [rewrite Hm2 in *; clear Hm2 |]);
    try (rewrite Hm2 in *; clear Hm2);
    lia.
Qed.

(** The code-unit order of two ISO dates is the order of their days. *)
Lemma compare_MakeDay c1 c2 :
  valid_civil c1 = true → valid_civil c2 = true →
  civil_compare c1 c2 = (MakeDay c1 ?= MakeDay c2).
Proof.
  intros Hv1 Hv2. unfold civil_compare.
  destruct (Z.compare_spec (year c1) (year c2)) as [Hy | Hy | Hy].
  - destruct (Z.compare_spec (month c1) (month c2)) as [Hm | Hm | Hm].
    + unfold MakeDay. rewrite Hy, Hm.
      destruct (Z.compare_spec (day c1) (day c2));
        symmetry; [apply Z.compare_eq_iff | apply Z.compare_lt_iff
                  | apply Z.compare_gt_iff]; lia.
    + symmetry. apply Z.compare_lt_iff. by apply MakeDay_lt_month.
    + symmetry. apply Z.compare_gt_iff. by apply MakeDay_lt_month.
  - symmetry. apply Z.compare_lt_iff. by apply MakeDay_lt_year.
  - symmetry. apply Z.compare_gt_iff. by apply MakeDay_lt_year.
Qed.

Lemma isoDate_le c1 c2 :
  valid_civil c1 = true → valid_civil c2 = true →
  String.le (isoDate c1) (isoDate c2) ↔ MakeDay c1 <= MakeDay c2.
Proof.
  intros Hv1 Hv2. unfold String.le, String.leb.
  rewrite compare_isoDate, compare_MakeDay by done.
  destruct (Z.compare_spec (MakeDay c1) (MakeDay c2)); simpl; split;
    intros; try done; lia.
Qed.

Lemma MakeDay_inj c1 c2 :
  valid_civil c1 = true → valid_civil c2 = true →
  MakeDay c1 = MakeDay c2 → c1 = c2.
Proof.
  intros Hv1 Hv2 Heq.
  assert (civil_compare c1 c2 = Eq) as Hc.
  { rewrite compare_MakeDay by done. by apply Z.compare_eq_iff. }
  unfold civil_compare in Hc.
  destruct (Z.compare_spec (year c1) (year c2)); try done.
  destruct (Z.compare_spec (month c1) (month c2)); try done.
  apply Z.compare_eq_iff in Hc.
  destruct c1, c2; simpl in *; congruence.
Qed.

Lemma isoDate_inj c1 c2 :
  valid_civil c1 = true → valid_civil c2 = true →
  isoDate c1 = isoDate c2 → c1 = c2.
Proof.
  intros Hv1 Hv2 Heq. apply (inj Some).
  rewrite <- (parseCivil_isoDate c1), <- (parseCivil_isoDate c2) by done.
  by rewrite Heq.
Qed.

(** *** From day numbers back to calendar dates *)

Lemma yearSearch_spec fuel y n :
  DayFromYear y <= n → n < DayFromYear (y + Z.of_nat fuel) →
  DayFromYear (yearSearch fuel y n) <= n < DayFromYear (yearSearch fuel y n + 1).
Proof.
  revert y. induction fuel as [|fuel IH]; intros y Hlo Hhi.
  - simpl in Hhi. rewrite Z.add_0_r in Hhi. lia.
  - simpl. destruct (Z.leb_spec (DayFromYear (y + 1)) n) as [Hle | Hgt]; [| lia].
    apply IH; [done |].
    by replace (y + 1 + Z.of_nat fuel) with (y + Z.of_nat (S fuel)) by lia.
Qed.

Lemma printableDay_spec n :
  printableDay n = true ↔ -719528 <= n < 2932897.
Proof.
  unfold printableDay. rewrite andb_true_iff, Z.leb_le, Z.ltb_lt.
  by change (DayFromYear 0) with (-719528); change (DayFromYear 10000) with 2932897.
Qed.

Lemma YearFromDay_spec n :
  printableDay n = true →
  DayFromYear (YearFromDay n) <= n < DayFromYear (YearFromDay n + 1).
Proof.
  intros Hn%printableDay_spec. unfold YearFromDay. apply yearSearch_spec.
  - destruct (Z.ltb_spec n 0); unfold DayFromYear; Z.div_mod_to_equations; lia.
  - destruct (Z.ltb_spec n 0); unfold DayFromYear; Z.div_mod_to_equations; lia.
Qed.

Lemma YearFromDay_range n : printableDay n = true → 0 <= YearFromDay n <= 9999.
Proof.
  intros Hn. pose proof (YearFromDay_spec n Hn) as [Hlo Hhi].
  apply printableDay_spec in Hn.
  change (-719528) with (DayFromYear 0) in Hn.
  change 2932897 with (DayFromYear 10000) in Hn.
  split.
  - destruct (Z.le_gt_cases 0 (YearFromDay n)) as [| Hneg]; [done |].
    pose proof (DayFromYear_mono (YearFromDay n + 1) 0). lia.
  - destruct (Z.le_gt_cases (YearFromDay n) 9999) as [| Hbig]; [done |].
    pose proof (DayFromYear_mono 10000 (YearFromDay n)). lia.
Qed.

(** Within a year, the month and the day of the month are in range and
    give back the day within the year. *)
Lemma MonthFromDay_spec y doy :
  0 <= doy < 365 + leapDay y →
  1 <= MonthFromDay y doy <= 12 ∧
  1 <= doy - MonthStart y (MonthFromDay y doy) + 1
    <= DaysInMonth y (MonthFromDay y doy).
Proof.
  unfold MonthFromDay, MonthStart, DaysInMonth, leapDay.
  destruct (InLeapYear y); intros Hdoy;
    repeat match goal with
           | |- context [?a <? ?b] => destruct (Z.ltb_spec a b)
           end; lia.
Qed.

Lemma civilFromDay_spec n :
  printableDay n = true →
  valid_civil (civilFromDay n) = true ∧ MakeDay (civilFromDay n) = n.
Proof.
  intros Hn. pose proof (YearFromDay_spec n Hn) as Hy.
  pose proof (YearFromDay_range n Hn) as Hrange.
  rewrite DayFromYear_succ in Hy.
  destruct (MonthFromDay_spec (YearFromDay n) (n - DayFromYear (YearFromDay n)))
    as [Hm Hd]; [lia |].
  split.
  - apply valid_civil_spec. unfold civilFromDay. cbn [year month day]. lia.
  - unfold MakeDay, civilFromDay. cbn [year month day]. lia.
Qed.

Lemma civilFromDay_MakeDay c :
  valid_civil c = true → civilFromDay (MakeDay c) = c.
Proof.
  intros Hv. assert (printableDay (MakeDay c) = true) as Hp.
  { apply printableDay_spec. pose proof (day_in_year c Hv) as Hd.
    apply valid_civil_spec in Hv as (Hy & _).
    pose proof (DayFromYear_mono 0 (year c)).
    pose proof (DayFromYear_mono (year c + 1) 10000).
    rewrite DayFromYear_succ in *.
    change (DayFromYear 0) with (-719528) in *.
    change (DayFromYear 10000) with 2932897 in *.
    unfold MakeDay. lia. }
  destruct (civilFromDay_spec _ Hp) as [Hv' Heq]. by apply MakeDay_inj.
Qed.

Example civilFromDay_epoch : civilFromDay 0 = mkCivil 1970 1 1.
Proof. reflexivity. Qed.

Example civilFromDay_leap_day : civilFromDay 19782 = mkCivil 2024 2 29.
Proof. reflexivity. Qed.

Example toISODate_2024 : toISODate 1709337599999 = "2024-03-01"%string.
Proof. reflexivity. Qed.

End DateFacts.

(** ** The streak *)

Section StreakFacts.

Local Abbreviation valid := (λ d : Civil, valid_civil d = true).

Lemma StronglySorted_reverse {A} (R : relation A) (l : list A) :
  StronglySorted R l → StronglySorted (flip R) (reverse l).
Proof.
  induction 1 as [|x l Hs IH Hx]; [constructor |].
  rewrite reverse_cons. apply StronglySorted_app. split_and!.
  - intros x1 x2 H1 ->%list_elem_of_singleton.
    rewrite elem_of_reverse in H1. rewrite Forall_forall in Hx. by apply Hx.
  - done.
  - repeat constructor.
Qed.

Lemma sort_sorted l : StronglySorted String.le (sort l).
Proof. apply StronglySorted_merge_sort; apply _. Qed.

Lemma sort_perm l : sort l ≡ₚ l.
Proof. apply merge_sort_Permutation. Qed.

(** Any array in ascending order with the same elements is the sorted one:
    the result of [sort] does not depend on the sorting algorithm. *)
Lemma sort_unique l l' : l' ≡ₚ l → StronglySorted String.le l' → l' = sort l.
Proof.
  intros Hp Hs. apply (StronglySorted_unique String.le); [done | apply sort_sorted |].
  by rewrite sort_perm.
Qed.

Lemma diffDays_isoDate a b :
  valid_civil a = true → valid_civil b = true →
  diffDays (isoDate a) (isoDate b) = Some (MakeDay a - MakeDay b).
Proof.
  intros Ha Hb. unfold diffDays. rewrite !parseDate_isoDate by done. simpl.
  f_equal. rewrite <- Z.mul_sub_distr_r. by apply Z.div_mul.
Qed.

Lemma streakLoop_cons a b l n :
  streakLoop (a :: b :: l) n =
  if decide (diffDays a b = Some 1) then streakLoop (b :: l) (S n) else n.
Proof. reflexivity. Qed.

Lemma streakLoop_S l n : streakLoop l (S n) = S (streakLoop l n).
Proof.
  revert n. induction l as [|a l IH]; intros n; [done |].
  destruct l as [|b l]; [done |].
  rewrite !streakLoop_cons. case_decide; [apply IH | done].
Qed.

(** On dates in strictly descending order the loop counts the run of
    consecutive days that starts at the head. *)
Lemma streakLoop_is_streak first rest :
  Forall valid (first :: rest) →
  StronglySorted later (first :: rest) →
  is_streak (MakeDay <$> first :: rest) (MakeDay first)
            (streakLoop (isoDate <$> first :: rest) 1).
Proof.
  revert first. induction rest as [|next rest IH]; intros first Hv Hs.
  - split.
    + simpl. intros k Hk. replace k with 0%nat by lia. rewrite Z.sub_0_r. set_solver.
    + simpl. intros Hin%list_elem_of_singleton. lia.
  - apply Forall_cons in Hv as [Hfirst Hv].
    apply StronglySorted_cons in Hs as [Hlt Hs].
    pose proof Hv as [Hnext _]%Forall_cons.
    destruct (IH next Hv Hs) as [IHin IHout].
    rewrite !fmap_cons, streakLoop_cons, diffDays_isoDate by done.
    rewrite <- !fmap_cons. case_decide as Hd.
    + assert (MakeDay first - MakeDay next = 1) as Hone by congruence.
      rewrite streakLoop_S. split.
      * intros [|k] Hk; [rewrite Z.sub_0_r; set_solver |].
        rewrite (fmap_cons _ first). right.
        replace (MakeDay first - Z.of_nat (S k)) with (MakeDay next - Z.of_nat k) by lia.
        apply IHin. lia.
      * rewrite (fmap_cons _ first).
        intros [Heq | Hin]%elem_of_cons; [lia |].
        apply IHout.
        by replace (MakeDay next - Z.of_nat (streakLoop (isoDate <$> next :: rest) 1))
          with (MakeDay first - Z.of_nat (S (streakLoop (isoDate <$> next :: rest) 1)))
          by lia.
    + split.
      * intros k Hk. replace k with 0%nat by lia. rewrite Z.sub_0_r. set_solver.
      * rewrite (fmap_cons _ first).
        intros [Heq | Hin]%elem_of_cons; [lia |].
        apply list_elem_of_fmap in Hin as (d & Hday & Hin).
        apply elem_of_cons in Hin as [-> | Hin].
        { apply Hd. f_equal. lia. }
        apply StronglySorted_cons in Hs as [Hrest _].
        rewrite Forall_forall in Hrest, Hlt.
        specialize (Hrest d Hin). specialize (Hlt next ltac:(set_solver)).
        unfold later in *. lia.
Qed.

Lemma is_streak_unique days top n m :
  is_streak days top n → is_streak days top m → n = m.
Proof.
  intros [Hin1 Hout1] [Hin2 Hout2].
  destruct (Nat.lt_trichotomy n m) as [Hlt | [Heq | Hgt]]; [| done |].
  - destruct Hout1. by apply Hin2.
  - destruct Hout2. by apply Hin1.
Qed.

Lemma is_streak_perm days1 days2 top n :
  days1 ≡ₚ days2 → is_streak days1 top n → is_streak days2 top n.
Proof.
  intros Hp [Hin Hout]. split.
  - intros k Hk. rewrite <- Hp. by apply Hin.
  - by rewrite <- Hp.
Qed.

(** The array [sortedDates] of [calculateStreak], seen as calendar dates. *)
Lemma sortedDates_descending cs :
  Forall valid cs →
  ∃ cs', reverse (sort (isoDate <$> cs)) = isoDate <$> cs' ∧
         cs ≡ₚ cs' ∧ StronglySorted not_before cs'.
Proof.
  intros Hv.
  assert (reverse (sort (isoDate <$> cs)) ≡ₚ isoDate <$> cs) as Hp.
  { by rewrite reverse_Permutation, sort_perm. }
  apply Permutation_map_inv in Hp as (cs' & Heq & Hp).
  exists cs'. split_and!; [done.. |].
  pose proof (StronglySorted_reverse _ _ (sort_sorted (isoDate <$> cs))) as Hs.
  rewrite Heq in Hs. rewrite Hp in Hv. clear Heq Hp.
  induction cs' as [|a cs' IH]; [constructor |].
  change (map isoDate (a :: cs')) with (isoDate a :: (isoDate <$> cs')) in Hs.
  apply StronglySorted_cons in Hs as [Ha Hs].
  apply Forall_cons in Hv as [Hva Hv].
  constructor; [by apply IH |].
  rewrite Forall_fmap in Ha. rewrite Forall_forall in Ha, Hv |- *.
  intros b Hb. specialize (Ha b Hb). unfold flip in Ha. simpl in Ha.
  apply isoDate_le in Ha; [done | by apply Hv | done].
Qed.

Lemma descending_strict cs :
  Forall valid cs → NoDup cs →
  StronglySorted not_before cs → StronglySorted later cs.
Proof.
  intros Hv Hnd Hs. induction cs as [|a cs IH]; [constructor |].
  apply StronglySorted_cons in Hs as [Ha Hs].
  apply Forall_cons in Hv as [Hva Hv]. apply NoDup_cons in Hnd as [Hna Hnd].
  constructor; [by apply IH |].
  rewrite Forall_forall in Ha, Hv |- *.
  intros b Hb. specialize (Ha b Hb). unfold later, not_before in *.
  destruct (decide (MakeDay b = MakeDay a)) as [Heq | Hne]; [| lia].
  apply MakeDay_inj in Heq; [| by apply Hv | done]. by subst.
Qed.

(** The head of [sortedDates] is the most recent date. *)
Lemma sortedDates_head cs latest :
  Forall valid cs → latest ∈ cs →
  (∀ d, d ∈ cs → MakeDay d <= MakeDay latest) →
  ∃ rest, reverse (sort (isoDate <$> cs)) = isoDate <$> latest :: rest ∧
          cs ≡ₚ latest :: rest ∧ StronglySorted not_before (latest :: rest).
Proof.
  intros Hv Hin Hmax.
  destruct (sortedDates_descending cs Hv) as (cs' & Heq & Hp & Hs).
  destruct cs' as [|first rest].
  { apply Permutation_nil_r in Hp. subst. by apply elem_of_nil in Hin. }
  assert (first = latest) as ->; [| by exists rest].
  apply MakeDay_inj.
  - rewrite Forall_forall in Hv. apply Hv. rewrite Hp. set_solver.
  - rewrite Forall_forall in Hv. by apply Hv.
  - apply Z.le_antisymm.
    + apply Hmax. rewrite Hp. set_solver.
    + rewrite Hp in Hin. apply elem_of_cons in Hin as [-> | Hin]; [done |].
      apply StronglySorted_cons in Hs as [Hall _].
      rewrite Forall_forall in Hall. by apply Hall.
Qed.

Lemma getTodayString_utcToday c : getTodayString c = isoDate (utcToday c).
Proof. reflexivity. Qed.

Lemma getYesterdayString_localDayBefore c :
  getYesterdayString c = isoDate (localDayBefore c).
Proof. reflexivity. Qed.

(** On a steady clock [setDate(getDate() - 1)] goes back exactly one day. *)
Lemma setDate_day_before c :
  printableDay (Day (LocalTime c (now c))) = true →
  LocalTZA c (LocalTime c (now c) - msPerDay) false = LocalTZA c (now c) true →
  setDate c (now c) (getDate c (now c) - 1) = now c - msPerDay.
Proof.
  intros Hp Htza. unfold setDate, getDate.
  set (t := LocalTime c (now c)) in *.
  destruct (civilFromDay_spec _ Hp) as [_ Hday].
  revert Hday. generalize (civilFromDay (Day t)). intros cv Hday.
  assert (MakeDay (mkCivil (year cv) (month cv) (day cv - 1)) = Day t - 1) as ->.
  { rewrite <- Hday. unfold MakeDay. cbn [year month day]. lia. }
  assert ((Day t - 1) * msPerDay + TimeWithinDay t = t - msPerDay) as ->.
  { unfold Day, TimeWithinDay, msPerDay. Z.div_mod_to_equations. lia. }
  unfold UTC. rewrite Htza. unfold t, LocalTime. lia.
Qed.

Lemma steady_clock_spec c :
  steady_clock c = true →
  valid_civil (utcToday c) = true ∧ valid_civil (localDayBefore c) = true ∧
  MakeDay (localDayBefore c) = MakeDay (utcToday c) - 1.
Proof.
  unfold steady_clock. rewrite !andb_true_iff, Z.eqb_eq.
  intros [[[Hy Ht] Hl] Htza].
  unfold utcToday, localDayBefore. rewrite setDate_day_before by done.
  assert (Day (now c - msPerDay) = Day (now c) - 1) as ->.
  { unfold Day, msPerDay. Z.div_mod_to_equations. lia. }
  destruct (civilFromDay_spec _ Hy) as [? ->].
  destruct (civilFromDay_spec _ Ht) as [? ->]. done.
Qed.

Example clock_at_noon :
  getTodayString (utcNoon 2024 3 1) = "2024-03-01"%string ∧
  getYesterdayString (utcNoon 2024 3 1) = "2024-02-29"%string ∧
  steady_clock (utcNoon 2024 3 1) = true.
Proof. by vm_compute. Qed.

(** Nine hours ahead of UTC, at 05:00 local time on 2 March. *)
Example clock_ahead_of_utc :
  getTodayString (clockAt 2024 3 1 20 32400000) = "2024-03-01"%string ∧
  getYesterdayString (clockAt 2024 3 1 20 32400000) = "2024-02-29"%string ∧
  steady_clock (clockAt 2024 3 1 20 32400000) = true.
Proof. by vm_compute. Qed.

(** A clock that is not steady: the local day before lasted 25 hours. *)
Example clock_after_summer_time :
  getTodayString londonAfterSummerTime = "2024-10-28"%string ∧
  getYesterdayString londonAfterSummerTime = "2024-10-26"%string ∧
  steady_clock londonAfterSummerTime = false.
Proof. by vm_compute. Qed.

Lemma calculateStreak_nil c : calculateStreak c [] = 0%nat.
Proof. reflexivity. Qed.

Lemma calculateStreak_alive c cs latest :
  steady_clock c = true →
  Forall valid cs → NoDup cs →
  latest ∈ cs → (∀ d, d ∈ cs → MakeDay d <= MakeDay latest) →
  MakeDay latest = MakeDay (utcToday c) ∨
    MakeDay latest = MakeDay (utcToday c) - 1 →
  is_streak (MakeDay <$> cs) (MakeDay latest)
            (calculateStreak c (isoDate <$> cs)).
Proof.
  intros (Ht & Hy & Hstep)%steady_clock_spec Hv Hnd Hin Hmax Halive.
  destruct (sortedDates_head cs latest Hv Hin Hmax) as (rest & Heq & Hp & Hs).
  unfold calculateStreak. rewrite Heq.
  destruct cs as [|c0 cs0]; [by apply elem_of_nil in Hin |].
  rewrite !fmap_cons. cbn [length Nat.eqb]. cbv iota.
  assert (isoDate latest = getTodayString c ∨ isoDate latest = getYesterdayString c)
    as Hhead.
  { rewrite getTodayString_utcToday, getYesterdayString_localDayBefore.
    assert (valid_civil latest = true) as Hvl.
    { rewrite Forall_forall in Hv. by apply Hv. }
    destruct Halive as [Hd | Hd]; [left | right]; f_equal; apply MakeDay_inj;
      try done; lia. }
  assert (bool_decide (isoDate latest ≠ getTodayString c) &&
          bool_decide (isoDate latest ≠ getYesterdayString c) = false) as ->.
  { apply andb_false_iff.
    destruct Hhead as [Hh | Hh]; [left | right]; by apply bool_decide_eq_false; intros []. }
  rewrite <- !fmap_cons. apply (is_streak_perm (MakeDay <$> latest :: rest)).
  { by rewrite Hp. }
  apply streakLoop_is_streak.
  - by rewrite <- Hp.
  - apply descending_strict; [by rewrite <- Hp | by rewrite <- Hp | done].
Qed.

Lemma calculateStreak_broken c cs latest :
  steady_clock c = true →
  Forall valid cs →
  latest ∈ cs → (∀ d, d ∈ cs → MakeDay d <= MakeDay latest) →
  MakeDay latest ≠ MakeDay (utcToday c) →
  MakeDay latest ≠ MakeDay (utcToday c) - 1 →
  calculateStreak c (isoDate <$> cs) = 0%nat.
Proof.
  intros (Ht & Hy & Hstep)%steady_clock_spec Hv Hin Hmax Hnt Hny.
  destruct (sortedDates_head cs latest Hv Hin Hmax) as (rest & Heq & Hp & Hs).
  unfold calculateStreak. rewrite Heq.
  destruct cs as [|c0 cs0]; [by apply elem_of_nil in Hin |].
  rewrite !fmap_cons. cbn [length Nat.eqb]. cbv iota.
  assert (valid_civil latest = true) as Hvl.
  { rewrite Forall_forall in Hv. by apply Hv. }
  rewrite !bool_decide_eq_true_2; [done | |].
  - rewrite getYesterdayString_localDayBefore. intros Heq'%isoDate_inj; [| done..].
    apply Hny. rewrite <- Hstep. by rewrite Heq'.
  - rewrite getTodayString_utcToday. intros Heq'%isoDate_inj; [| done..].
    apply Hnt. by rewrite Heq'.
Qed.

(** Date strings are the prints of valid calendar dates. *)
Lemma date_strings_civil dates :
  Forall (λ s, isDateString s = true) dates →
  ∃ cs, dates = isoDate <$> cs ∧ Forall valid cs ∧
        dayOf <$> dates = MakeDay <$> cs.
Proof.
  induction 1 as [|s dates Hs _ (cs & -> & Hv & Hdays)].
  - by exists [].
  - apply isDateString_spec in Hs as (c & Hc & ->).
    exists (c :: cs). split_and!; [done | by constructor |].
    rewrite !fmap_cons, Hdays. by rewrite dayOf_isoDate.
Qed.

Lemma dayOf_today c :
  steady_clock c = true → dayOf (getTodayString c) = MakeDay (utcToday c).
Proof.
  intros (Ht & _)%steady_clock_spec. rewrite getTodayString_utcToday.
  by apply dayOf_isoDate.
Qed.

Lemma calculateStreak_alive_dates c dates latest :
  steady_clock c = true →
  Forall (λ s, isDateString s = true) dates → NoDup dates →
  latest ∈ dates → (∀ s, s ∈ dates → dayOf s <= dayOf latest) →
  dayOf latest = dayOf (getTodayString c) ∨
    dayOf latest = dayOf (getTodayString c) - 1 →
  is_streak (dayOf <$> dates) (dayOf latest) (calculateStreak c dates).
Proof.
  intros Hc (cs & -> & Hv & Hdays)%date_strings_civil Hnd Hin Hmax.
  rewrite dayOf_today, Hdays by done.
  apply list_elem_of_fmap in Hin as (l0 & -> & Hin).
  assert (∀ d, d ∈ cs → dayOf (isoDate d) = MakeDay d) as Hday.
  { intros d Hd. apply dayOf_isoDate. rewrite Forall_forall in Hv. by apply Hv. }
  rewrite (Hday l0 Hin). apply calculateStreak_alive; try done.
  - by apply NoDup_fmap_1 in Hnd.
  - intros d Hd. rewrite <- (Hday d Hd), <- (Hday l0 Hin).
    by apply Hmax, list_elem_of_fmap_2.
Qed.

(** When today's date is itself among the dates, the head test passes on
    the first comparison and the print of yesterday is never looked at. *)
Lemma calculateStreak_today_dates c dates :
  Forall (λ s, isDateString s = true) dates → NoDup dates →
  getTodayString c ∈ dates →
  (∀ s, s ∈ dates → dayOf s <= dayOf (getTodayString c)) →
  is_streak (dayOf <$> dates) (dayOf (getTodayString c)) (calculateStreak c dates).
Proof.
  intros (cs & -> & Hv & Hdays)%date_strings_civil Hnd Hin Hmax.
  apply list_elem_of_fmap in Hin as (latest & Htoday & Hin).
  assert (∀ d, d ∈ cs → dayOf (isoDate d) = MakeDay d) as Hday.
  { intros d Hd. apply dayOf_isoDate. rewrite Forall_forall in Hv. by apply Hv. }
  assert (∀ d, d ∈ cs → MakeDay d <= MakeDay latest) as Hmax'.
  { intros d Hd. rewrite <- (Hday d Hd), <- (Hday latest Hin), <- Htoday.
    by apply Hmax, list_elem_of_fmap_2. }
  rewrite Hdays. rewrite Htoday at 1. rewrite (Hday latest Hin).
  destruct (sortedDates_head cs latest Hv Hin Hmax') as (rest & Heq & Hp & Hs).
  unfold calculateStreak. rewrite Heq.
  destruct cs as [|c0 cs0]; [by apply elem_of_nil in Hin |].
  rewrite !fmap_cons. cbn [length Nat.eqb]. cbv iota.
  assert (bool_decide (isoDate latest ≠ getTodayString c) &&
          bool_decide (isoDate latest ≠ getYesterdayString c) = false) as ->.
  { apply andb_false_iff. left. apply bool_decide_eq_false. by intros []. }
  rewrite <- !fmap_cons. apply (is_streak_perm (MakeDay <$> latest :: rest)).
  { by rewrite Hp. }
  apply NoDup_fmap_1 in Hnd.
  apply streakLoop_is_streak.
  - by rewrite <- Hp.
  - apply descending_strict; [by rewrite <- Hp | by rewrite <- Hp | done].
Qed.

Lemma calculateStreak_broken_dates c dates latest :
  steady_clock c = true →
  Forall (λ s, isDateString s = true) dates →
  latest ∈ dates → (∀ s, s ∈ dates → dayOf s <= dayOf latest) →
  dayOf latest ≠ dayOf (getTodayString c) →
  dayOf latest ≠ dayOf (getTodayString c) - 1 →
  calculateStreak c dates = 0%nat.
Proof.
  intros Hc (cs & -> & Hv & Hdays)%date_strings_civil Hin Hmax.
  rewrite dayOf_today by done.
  apply list_elem_of_fmap in Hin as (l0 & -> & Hin).
  assert (∀ d, d ∈ cs → dayOf (isoDate d) = MakeDay d) as Hday.
  { intros d Hd. apply dayOf_isoDate. rewrite Forall_forall in Hv. by apply Hv. }
  rewrite (Hday l0 Hin). apply calculateStreak_broken; try done.
  intros d Hd. rewrite <- (Hday d Hd), <- (Hday l0 Hin).
  by apply Hmax, list_elem_of_fmap_2.
Qed.

(** A run of [n] consecutive dates that ends today or the day before
    counts [n]. *)
Lemma calculateStreak_consecutive c dates latest (n : nat) :
  steady_clock c = true →
  Forall (λ s, isDateString s = true) dates → NoDup dates → latest ∈ dates →
  (∀ d, d ∈ dayOf <$> dates ↔ dayOf latest - Z.of_nat n < d <= dayOf latest) →
  dayOf latest = dayOf (getTodayString c) ∨
    dayOf latest = dayOf (getTodayString c) - 1 →
  calculateStreak c dates = n.
Proof.
  intros Hc Hv Hnd Hin Hrun Halive.
  apply (is_streak_unique (dayOf <$> dates) (dayOf latest)).
  - apply calculateStreak_alive_dates; try done.
    intros d Hd. apply (list_elem_of_fmap_2 dayOf) in Hd. apply Hrun in Hd. lia.
  - split.
    + intros k Hk. apply Hrun. lia.
    + rewrite Hrun. lia.
Qed.

(** The single check-in of five days ago. *)
Lemma calculateStreak_five_days_ago c s :
  steady_clock c = true → isDateString s = true →
  dayOf s = dayOf (getTodayString c) - 5 →
  calculateStreak c [s] = 0%nat.
Proof.
  intros Hc Hv Hd. apply (calculateStreak_broken_dates c [s] s); try done.
  - by constructor.
  - set_solver.
  - by intros ? ->%list_elem_of_singleton.
  - lia.
  - lia.
Qed.

(** On a steady clock [calculateStreak] agrees with the reference notion
    of the specification: it answers 0 on the empty array, and on a
    non-empty array of distinct calendar-date strings whose most recent
    date is today or the day before today it answers the length of the
    maximal run of consecutive days that ends at the most recent date. *)
Theorem calculateStreak_reference :
  (∀ c, calculateStreak c [] = 0%nat) ∧
  (∀ c dates latest,
     steady_clock c = true →
     Forall (λ s, isDateString s = true) dates → NoDup dates →
     latest ∈ dates → (∀ s, s ∈ dates → dayOf s <= dayOf latest) →
     dayOf latest = dayOf (getTodayString c) ∨
       dayOf latest = dayOf (getTodayString c) - 1 →
     is_streak (dayOf <$> dates) (dayOf latest) (calculateStreak c dates)).
Proof.
  split; [apply calculateStreak_nil | apply calculateStreak_alive_dates].
Qed.

Lemma calculateStreak_reference_witness :
  is_streak
    (dayOf <$> ["2024-02-27"; "2024-03-01"; "2024-02-29"]%string)
    (dayOf "2024-03-01")
    (calculateStreak (utcNoon 2024 3 2)
       ["2024-02-27"; "2024-03-01"; "2024-02-29"]%string).
Proof.
  apply (proj2 calculateStreak_reference).
  - reflexivity.
  - repeat constructor.
  - by_compute.
  - by_compute.
  - apply Forall_forall. repeat constructor; vm_compute; discriminate.
  - right. reflexivity.
Defined.

(** On a steady clock, when the most recent date of a non-empty array of
    calendar-date strings is neither today nor the day before today,
    [calculateStreak] answers 0, whatever runs the array holds. *)
Theorem calculateStreak_broken_is_zero c dates latest :
  steady_clock c = true →
  Forall (λ s, isDateString s = true) dates →
  latest ∈ dates → (∀ s, s ∈ dates → dayOf s <= dayOf latest) →
  dayOf latest ≠ dayOf (getTodayString c) →
  dayOf latest ≠ dayOf (getTodayString c) - 1 →
  calculateStreak c dates = 0%nat.
Proof. apply calculateStreak_broken_dates. Qed.

Lemma calculateStreak_broken_is_zero_witness :
  calculateStreak (utcNoon 2024 3 10)
    ["2024-03-03"; "2024-03-04"; "2024-03-05"]%string = 0%nat.
Proof.
  apply (calculateStreak_broken_is_zero _ _ "2024-03-05"%string).
  - reflexivity.
  - repeat constructor.
  - by_compute.
  - apply Forall_forall. repeat constructor; vm_compute; discriminate.
  - vm_compute. discriminate.
  - vm_compute. discriminate.
Defined.

(** C1 does not hold of the code on every clock.  In London at 00:30 on
    28 October 2024, the day after summer time ended, [getYesterdayString]
    steps back one local day, which lasted 25 hours, and prints the UTC date
    of that instant: 26 October, two days before today.  A most recent
    check-in of 27 October, the day before today, is then taken for a
    broken streak: [calculateStreak] answers 0 where the claim asks for
    the length of the run, 1 and 3 here. *)
Theorem calculateStreak_day_before_today_lost :
  getTodayString londonAfterSummerTime = "2024-10-28"%string ∧
  getYesterdayString londonAfterSummerTime = "2024-10-26"%string ∧
  dayOf "2024-10-27" = dayOf (getTodayString londonAfterSummerTime) - 1 ∧
  calculateStreak londonAfterSummerTime ["2024-10-27"%string] = 0%nat ∧
  calculateStreak londonAfterSummerTime
    ["2024-10-25"; "2024-10-26"; "2024-10-27"]%string = 0%nat.
Proof. vm_compute. done. Qed.

(** C2 does not hold of the code on every clock.  On the same clock a
    most recent check-in of 26 October, which is neither today nor the day
    before today, is taken for yesterday's: [calculateStreak] answers the
    length of the run that ends there, 1 and 2 here, where the claim asks
    for 0. *)
Theorem calculateStreak_two_days_ago_alive :
  getTodayString londonAfterSummerTime = "2024-10-28"%string ∧
  dayOf "2024-10-26" = dayOf (getTodayString londonAfterSummerTime) - 2 ∧
  calculateStreak londonAfterSummerTime ["2024-10-26"%string] = 1%nat ∧
  calculateStreak londonAfterSummerTime
    ["2024-10-25"; "2024-10-26"]%string = 2%nat.
Proof. vm_compute. done. Qed.

Example streak_no_dates :
  calculateStreak (utcNoon 2024 3 4) [] = 0%nat.
Proof. reflexivity. Qed.

Example streak_today_only :
  calculateStreak (utcNoon 2024 3 4)
    ["2024-03-04"%string] = 1%nat.
Proof. vm_compute. reflexivity. Qed.

Example streak_yesterday_and_today :
  calculateStreak (utcNoon 2024 3 1)
    ["2024-02-29"; "2024-03-01"]%string = 2%nat.
Proof. vm_compute. reflexivity. Qed.

Example streak_gap_before_today :
  calculateStreak (utcNoon 2024 3 4)
    ["2024-03-02"; "2024-03-04"]%string = 1%nat.
Proof. vm_compute. reflexivity. Qed.

Example streak_day1_day2_day4 :
  calculateStreak (utcNoon 2024 3 4)
    ["2024-03-01"; "2024-03-02"; "2024-03-04"]%string = 1%nat.
Proof. vm_compute. reflexivity. Qed.

Example streak_across_new_year :
  calculateStreak (utcNoon 2024 1 2)
    ["2024-01-01"; "2023-12-30"; "2023-12-31"]%string = 3%nat.
Proof. vm_compute. reflexivity. Qed.

End StreakFacts.

(** ** The ledger *)

Section LedgerFacts.

Lemma saveCheckIn_spec c w d s item item' :
  saveCheckIn c w d s item = Ok item' →
  ∃ allData r1,
    parseAllData item = Ok allData ∧
    item' = Some (JsonText (<[toLowerCase w := r1]> allData)) ∧
    let r0 := default defaultUserData (allData !! toLowerCase w) in
    dates r1 = (if bool_decide (d ∈ dates r0) then dates r0
                else sort (dates r0 ++ [d])) ∧
    streak r1 = calculateStreak c (dates r1) ∧
    total r1 = length (dates r1) ∧
    lastDate r1 = Some d ∧
    signatures r1 = <[d := s]> (signatures r0).
Proof.
  unfold saveCheckIn. destruct (parseAllData item) as [allData | e]; [| done].
  intros [= <-]. by eexists _, _.
Qed.

Lemma saveCheckIn_total c w d s item :
  item ≠ Some BadText → item ≠ Some NullText →
  ∃ item', saveCheckIn c w d s item = Ok item'.
Proof.
  intros Hok Hobj. unfold saveCheckIn.
  destruct item as [[| | | allData] |]; try done; by eexists.
Qed.

Lemma getUserData_JsonText w allData :
  getUserData w (Some (JsonText allData)) =
  Ok (default defaultUserData (allData !! toLowerCase w)).
Proof. reflexivity. Qed.

(** What a read of the saved wallet, under any spelling of its key, finds. *)
Lemma getUserData_saved c w d s item item' w' :
  saveCheckIn c w d s item = Ok item' →
  toLowerCase w' = toLowerCase w →
  ∃ r1, getUserData w' item' = Ok r1 ∧
        d ∈ dates r1 ∧
        signatures r1 !! d = Some s ∧
        streak r1 = calculateStreak c (dates r1) ∧
        total r1 = length (dates r1).
Proof.
  intros (allData & r1 & Hp & -> & Hd & Hs & Ht & _ & Hsig)%saveCheckIn_spec Hw.
  exists r1. rewrite getUserData_JsonText, Hw, lookup_insert_eq. simpl.
  split_and!; try done.
  - rewrite Hd. case_bool_decide; [done |].
    rewrite sort_perm. set_solver.
  - by rewrite Hsig, lookup_insert_eq.
Qed.

(** A save under one key leaves the records under the other keys alone. *)
Lemma getUserData_other c w d s item item' w' :
  saveCheckIn c w d s item = Ok item' →
  toLowerCase w' ≠ toLowerCase w →
  getUserData w' item' = getUserData w' item.
Proof.
  intros (allData & r1 & Hp & -> & _)%saveCheckIn_spec Hw.
  rewrite getUserData_JsonText, lookup_insert_ne by done.
  unfold getUserData. by rewrite Hp.
Qed.

Lemma getUserData_saveAll_other calls w item item' :
  Forall (λ call, toLowerCase call.1.1.2 ≠ toLowerCase w) calls →
  saveAll calls item = Ok item' →
  getUserData w item' = getUserData w item.
Proof.
  revert item. induction calls as [|[[[c w1] d] s] calls IH]; intros item Hall Hrun.
  - by injection Hrun as ->.
  - apply Forall_cons in Hall as [Hw Hall]. simpl in Hw, Hrun.
    destruct (saveCheckIn c w1 d s item) as [item1 | e] eqn:Hsave; [| done].
    rewrite (IH item1) by done.
    eapply getUserData_other; [done | by intros Heq; apply Hw].
Qed.

(** *** The second check-in of a day *)

Lemma handleCheckIn_checked_in atClick atSave signed app app1 :
  handleCheckIn atClick atSave signed app = (CheckedIn, app1) →
  ∃ wallet signature item,
    currentWallet app = Some wallet ∧ wallet ≠ EmptyString ∧
    signed = Some signature ∧
    saveCheckIn atSave wallet (getTodayString atClick) signature (localStorage app)
      = Ok item ∧
    app1 = {| currentWallet := Some wallet; localStorage := item |}.
Proof.
  unfold handleCheckIn.
  destruct (currentWallet app) as [wallet |] eqn:Hw; [| done].
  case_decide; [done |].
  destruct (getUserData wallet (localStorage app)); [| done].
  case_bool_decide; [done |].
  destruct signed as [signature |]; [| done].
  case_decide; [done |].
  destruct (saveCheckIn _ _ _ _ _) as [item |] eqn:Hsave; [| done].
  intros [= <-]. by eexists _, _, _.
Qed.

Lemma handleCheckIn_already atClick atSave signed app wallet userData :
  currentWallet app = Some wallet → wallet ≠ EmptyString →
  getUserData wallet (localStorage app) = Ok userData →
  getTodayString atClick ∈ dates userData →
  handleCheckIn atClick atSave signed app = (AlreadyCheckedIn, app).
Proof.
  intros Hw Hne Hget Hin. unfold handleCheckIn. rewrite Hw, Hget.
  rewrite decide_False by done. by rewrite bool_decide_eq_true_2.
Qed.

(** C3. After a check-in that was recorded, a second check-in of the same
    wallet on the same date is turned away with the already-checked-in
    alert and changes nothing: the application state, hence the stored
    record with its total and its dates, is the one before the call. *)
Theorem second_checkin_rejected
    atClick atSave signed app app1 atClick2 atSave2 signed2 :
  handleCheckIn atClick atSave signed app = (CheckedIn, app1) →
  getTodayString atClick2 = getTodayString atClick →
  handleCheckIn atClick2 atSave2 signed2 app1 = (AlreadyCheckedIn, app1).
Proof.
  intros (wallet & signature & item & Hw & Hne & -> & Hsave & ->)%handleCheckIn_checked_in
    Hsame.
  destruct (getUserData_saved _ _ _ _ _ _ wallet Hsave eq_refl)
    as (r1 & Hget & Hin & _).
  eapply handleCheckIn_already; [done.. | by rewrite Hsame].
Qed.

Lemma second_checkin_rejected_witness :
  handleCheckIn (utcNoon 2024 3 1)
    (utcNoon 2024 3 1) (Some "0x9e11"%string)
    (handleCheckIn (utcNoon 2024 3 1)
       (utcNoon 2024 3 1) (Some "0x5167"%string)
       (mkApp (Some "0xAbC"%string) None)).2
  = (AlreadyCheckedIn,
     (handleCheckIn (utcNoon 2024 3 1)
        (utcNoon 2024 3 1) (Some "0x5167"%string)
        (mkApp (Some "0xAbC"%string) None)).2).
Proof.
  apply (second_checkin_rejected
           (utcNoon 2024 3 1)
           (utcNoon 2024 3 1)
           (Some "0x5167"%string) (mkApp (Some "0xAbC"%string) None)).
  - vm_compute. reflexivity.
  - reflexivity.
Defined.

(** [saveCheckIn] itself has no such guard: called again for a date that is
    already recorded it keeps the dates and the total and replaces the
    signature. *)
Lemma saveCheckIn_again c w d s item item' r0 :
  getUserData w item = Ok r0 → d ∈ dates r0 →
  saveCheckIn c w d s item = Ok item' →
  ∃ r1, getUserData w item' = Ok r1 ∧ dates r1 = dates r0 ∧
        total r1 = length (dates r0) ∧ signatures r1 !! d = Some s.
Proof.
  intros Hget Hin (allData & r1 & Hp & -> & Hd & _ & Ht & _ & Hsig)%saveCheckIn_spec.
  unfold getUserData in Hget. rewrite Hp in Hget. injection Hget as Hr0.
  rewrite Hr0 in Hd, Hsig. rewrite bool_decide_eq_true_2 in Hd by done.
  exists r1. rewrite getUserData_JsonText, lookup_insert_eq. simpl.
  split_and!; [done | done | by rewrite Ht, Hd | by rewrite Hsig, lookup_insert_eq].
Qed.

(** *** The streak that a read returns *)

(** C4, as the code has it.  The streak that [getUserData] returns is the
    one stored by the last save for that wallet: [calculateStreak] of the
    record's dates at the clock of that save, whatever was saved for other
    wallets since; a wallet without a record reads the default record, of
    streak 0.  [getUserData] does not read the clock. *)
Theorem getUserData_streak_as_saved :
  (∀ c w d s item item1 calls item2,
     saveCheckIn c w d s item = Ok item1 →
     Forall (λ call, toLowerCase call.1.1.2 ≠ toLowerCase w) calls →
     saveAll calls item1 = Ok item2 →
     ∃ r, getUserData w item2 = Ok r ∧ streak r = calculateStreak c (dates r)) ∧
  (∀ w item allData,
     parseAllData item = Ok allData → allData !! toLowerCase w = None →
     ∃ r, getUserData w item = Ok r ∧ streak r = 0%nat).
Proof.
  split.
  - intros c w d s item item1 calls item2 Hsave Hall Hrun.
    destruct (getUserData_saved _ _ _ _ _ _ w Hsave eq_refl)
      as (r & Hget & _ & _ & Hstreak & _).
    exists r. split; [| done].
    by rewrite (getUserData_saveAll_other calls w item1 item2).
  - intros w item allData Hp Hnone. exists defaultUserData.
    unfold getUserData. by rewrite Hp; simpl; rewrite Hnone.
Qed.

Lemma getUserData_streak_as_saved_witness :
  ∃ r, getUserData "0xabc"
         (Some (JsonText
            (<["0xdef"%string :=
                 mkUserData ["2024-03-02"%string] 1 1 (Some "2024-03-02"%string)
                   {["2024-03-02"%string := "0x77"%string]}]>
             (<["0xabc"%string :=
                 mkUserData ["2024-03-01"%string] 1 1 (Some "2024-03-01"%string)
                   {["2024-03-01"%string := "0x5167"%string]}]> ∅)))) = Ok r ∧
       streak r =
       calculateStreak (utcNoon 2024 3 1) (dates r).
Proof.
  apply (proj1 getUserData_streak_as_saved
           (utcNoon 2024 3 1)
           "0xABC"%string "2024-03-01"%string "0x5167"%string None
           (Some (JsonText
              (<["0xabc"%string :=
                  mkUserData ["2024-03-01"%string] 1 1 (Some "2024-03-01"%string)
                    {["2024-03-01"%string := "0x5167"%string]}]> ∅)))
           [(utcNoon 2024 3 2,
             "0xDEF"%string, "2024-03-02"%string, "0x77"%string)]).
  - vm_compute. reflexivity.
  - repeat constructor. vm_compute. discriminate.
  - vm_compute. reflexivity.
Defined.

(** C4 as it is stated fails: a record saved on 1 March and read on
    10 March still carries streak 1, while [calculateStreak] on its dates
    answers 0 on that day. *)
Lemma getUserData_streak_stale :
  let saved := Some (JsonText
                 (<["0xabc"%string :=
                     mkUserData ["2024-03-01"%string] 1 1 (Some "2024-03-01"%string)
                       {["2024-03-01"%string := "0x5167"%string]}]> ∅)) in
  let atRead := utcNoon 2024 3 10 in
  saveCheckIn (utcNoon 2024 3 1)
    "0xABC" "2024-03-01" "0x5167" None = Ok saved ∧
  ∃ r, getUserData "0xABC" saved = Ok r ∧
       streak r = 1%nat ∧ calculateStreak atRead (dates r) = 0%nat ∧
       streak r ≠ calculateStreak atRead (dates r).
Proof.
  split; [vm_compute; reflexivity |].
  eexists. split; [vm_compute; reflexivity |].
  split_and!; vm_compute; [reflexivity | reflexivity | discriminate].
Qed.

(** *** Reading a store that does not parse *)

Lemma getUserData_total w item :
  item ≠ Some BadText → item ≠ Some NullText → ∃ r, getUserData w item = Ok r.
Proof.
  destruct item as [[| | | allData] |]; intros Hok Hobj; try done; by eexists.
Qed.




(** *** The invariant of the records *)

Lemma defaultUserData_inv : record_inv defaultUserData.
Proof.
  unfold record_inv. simpl. split_and!; [done | constructor | constructor |].
  by rewrite dom_empty_L.
Qed.

Lemma saveCheckIn_record_inv c w d s item item' :
  (∀ w0 r0, getUserData w0 item = Ok r0 → record_inv r0) →
  saveCheckIn c w d s item = Ok item' →
  ∀ w1 r1, getUserData w1 item' = Ok r1 → record_inv r1.
Proof.
  intros Hinv Hsave w1 r1 Hget.
  destruct (decide (toLowerCase w1 = toLowerCase w)) as [Hw | Hw].
  - apply saveCheckIn_spec in Hsave
      as (allData & r & Hp & -> & Hd & _ & Ht & _ & Hsig).
    rewrite getUserData_JsonText, Hw, lookup_insert_eq in Hget.
    injection Hget as <-.
    destruct (Hinv w (default defaultUserData (allData !! toLowerCase w)))
      as (_ & Hnd & Hsorted & Hdom).
    { unfold getUserData. by rewrite Hp. }
    set (r0 := default defaultUserData (allData !! toLowerCase w)) in *.
    unfold record_inv. rewrite Ht, Hsig, dom_insert_L, Hdom, Hd.
    case_bool_decide as Hin.
    + split_and!; [done.. |].
      apply set_eq. intros x.
      rewrite elem_of_union, elem_of_singleton, elem_of_list_to_set.
      split; [by intros [-> | ?] | by right].
    + split_and!; [done | | apply sort_sorted |].
      * rewrite sort_perm. apply NoDup_app. split_and!; [done | | apply NoDup_singleton].
        by intros x Hx ->%list_elem_of_singleton.
      * rewrite (list_to_set_perm_L (sort (dates r0 ++ [d])) (dates r0 ++ [d]))
          by apply sort_perm.
        rewrite list_to_set_app_L. simpl.
        apply set_eq. intros x.
        rewrite !elem_of_union, elem_of_singleton, elem_of_empty. tauto.
  - apply (Hinv w1). by rewrite <- (getUserData_other c w d s item item').
Qed.

(** C6. Every sequence of saves that starts from the empty store leaves a
    store in which every wallet reads a record that satisfies the
    invariant: the total is the number of dates, the dates are distinct and
    ascending, and the signatures are keyed by exactly the dates. *)
Theorem saveAll_record_inv calls :
  ∃ item, saveAll calls None = Ok item ∧
          ∀ w, ∃ r, getUserData w item = Ok r ∧ record_inv r.
Proof.
  assert (∀ item0,
            item0 ≠ Some BadText → item0 ≠ Some NullText →
            (∀ w0 r0, getUserData w0 item0 = Ok r0 → record_inv r0) →
            ∃ item, saveAll calls item0 = Ok item ∧
                    item ≠ Some BadText ∧ item ≠ Some NullText ∧
                    ∀ w r, getUserData w item = Ok r → record_inv r) as Hgen.
  { induction calls as [|[[[c w] d] s] calls IH]; intros item0 Hok Hobj Hinv.
    - by exists item0.
    - destruct (saveCheckIn_total c w d s item0 Hok Hobj) as [item1 Hsave].
      simpl. rewrite Hsave. simpl. apply IH.
      + apply saveCheckIn_spec in Hsave as (? & ? & _ & -> & _). done.
      + apply saveCheckIn_spec in Hsave as (? & ? & _ & -> & _). done.
      + by eapply saveCheckIn_record_inv. }
  destruct (Hgen None) as (item & Hrun & Hok & Hobj & Hinv); [done | done | |].
  { intros w0 r0 [= <-]. apply defaultUserData_inv. }
  exists item. split; [done |]. intros w.
  destruct (getUserData_total w item Hok Hobj) as [r Hget].
  exists r. split; [done |]. by eapply Hinv.
Qed.

(** Check-ins on 1, 2 and 4 March, read on 4 March. *)
Example three_checkins_with_a_gap :
  (r ← (item ← saveAll
          [(utcNoon 2024 3 1, "0xAAA", "2024-03-01", "0x01");
           (utcNoon 2024 3 2, "0xAAA", "2024-03-02", "0x02");
           (utcNoon 2024 3 4, "0xAAA", "2024-03-04", "0x03")]%string
          None;
        getUserData "0xAAA" item);
   mret (streak r, total r, dates r))
  = Ok (1%nat, 3%nat, ["2024-03-01"; "2024-03-02"; "2024-03-04"]%string).
Proof. vm_compute. reflexivity. Qed.

(** *** Round trip *)

(** C7. After a save of signature [s] for wallet [w] on date [d], the
    record read for [w] holds [s] under [d] and lists [d] among its
    dates. *)
Theorem checkin_round_trip c w d s item item' :
  saveCheckIn c w d s item = Ok item' →
  ∃ r, getUserData w item' = Ok r ∧ signatures r !! d = Some s ∧ d ∈ dates r.
Proof.
  intros Hsave.
  destruct (getUserData_saved _ _ _ _ _ _ w Hsave eq_refl)
    as (r & Hget & Hin & Hsig & _).
  by exists r.
Qed.

Lemma checkin_round_trip_witness :
  ∃ r, getUserData "0xAbC"
         (Some (JsonText
            (<["0xabc"%string :=
                 mkUserData ["2024-03-01"%string] 1 1 (Some "2024-03-01"%string)
                   {["2024-03-01"%string := "0x5167"%string]}]> ∅))) = Ok r ∧
       signatures r !! "2024-03-01"%string = Some "0x5167"%string ∧
       "2024-03-01"%string ∈ dates r.
Proof.
  apply (checkin_round_trip (utcNoon 2024 3 1)
           "0xAbC"%string "2024-03-01"%string "0x5167"%string None).
  vm_compute. reflexivity.
Defined.

(** The same through the button: a recorded check-in is read back. *)
Lemma handleCheckIn_round_trip atClick atSave signed app app1 :
  handleCheckIn atClick atSave signed app = (CheckedIn, app1) →
  ∃ wallet signature r,
    currentWallet app = Some wallet ∧ signed = Some signature ∧
    getUserData wallet (localStorage app1) = Ok r ∧
    signatures r !! getTodayString atClick = Some signature ∧
    getTodayString atClick ∈ dates r.
Proof.
  intros (wallet & signature & item & Hw & _ & -> & Hsave & ->)%handleCheckIn_checked_in.
  destruct (getUserData_saved _ _ _ _ _ _ wallet Hsave eq_refl)
    as (r & Hget & Hin & Hsig & _).
  by exists wallet, signature, r.
Qed.

(** *** Wallet keys and letter case *)

Lemma lowerChar_upperChar a : lowerChar (upperChar a) = lowerChar a.
Proof. destruct a as [[] [] [] [] [] [] [] []]; reflexivity. Qed.

Lemma sameLetter_lowerChar a b : sameLetter a b = true → lowerChar a = lowerChar b.
Proof.
  unfold sameLetter. rewrite !orb_true_iff, !bool_decide_eq_true.
  intros [[-> | ->] | ->]; by rewrite ?lowerChar_upperChar.
Qed.

Lemma differOnlyInCase_toLowerCase s1 s2 :
  differOnlyInCase s1 s2 = true → toLowerCase s1 = toLowerCase s2.
Proof.
  revert s2. induction s1 as [|a s1 IH]; intros [|b s2]; simpl; try done.
  intros [Hab Hs]%andb_true_iff. f_equal; [by apply sameLetter_lowerChar | by apply IH].
Qed.

(** C8. Two wallet addresses that differ only in letter case read the same
    record from every store, and a check-in saved under one of them is read
    under the other. *)
Theorem wallet_case_insensitive w1 w2 :
  differOnlyInCase w1 w2 = true →
  (∀ item, getUserData w1 item = getUserData w2 item) ∧
  (∀ c d s item item',
     saveCheckIn c w1 d s item = Ok item' →
     saveCheckIn c w2 d s item = Ok item' ∧
     ∃ r, getUserData w2 item' = Ok r ∧ getUserData w1 item' = Ok r ∧
          d ∈ dates r ∧ signatures r !! d = Some s).
Proof.
  intros Hcase%differOnlyInCase_toLowerCase. split.
  - intros item. unfold getUserData. by rewrite Hcase.
  - intros c d s item item' Hsave. split.
    + unfold saveCheckIn in *. by rewrite <- Hcase.
    + destruct (getUserData_saved _ _ _ _ _ _ w2 Hsave (eq_sym Hcase))
        as (r & Hget & Hin & Hsig & _).
      exists r. split_and!; try done.
      unfold getUserData in *. by rewrite Hcase.
Qed.

Lemma wallet_case_insensitive_witness :
  (∀ item, getUserData "0xABCdef01" item = getUserData "0xabcDEF01" item) ∧
  (∀ c d s item item',
     saveCheckIn c "0xABCdef01" d s item = Ok item' →
     saveCheckIn c "0xabcDEF01" d s item = Ok item' ∧
     ∃ r, getUserData "0xabcDEF01" item' = Ok r ∧
          getUserData "0xABCdef01" item' = Ok r ∧
          d ∈ dates r ∧ signatures r !! d = Some s).
Proof. apply wallet_case_insensitive. reflexivity. Defined.

Example toLowerCase_address : toLowerCase "0xABCdef01" = "0xabcdef01"%string.
Proof. reflexivity. Qed.

End LedgerFacts.

(** ** The frame detection and the wallet provider *)

Section ProviderFacts.

Context {Provider : Type}.
Implicit Types w : Window Provider.

(** The host bridge is found exactly when the SDK is loaded and carries a
    wallet with a provider. *)
Lemma getFarcasterProvider_Some w bridge :
  getFarcasterProvider true w = Some bridge ↔
  ∃ sdk wl, loadedSdk w = SdkLoaded (Some sdk) ∧ wallet sdk = Some wl ∧
            ethProvider wl = Some bridge.
Proof.
  unfold getFarcasterProvider. simpl. split.
  - destruct (loadedSdk w) as [| [sdk |]]; try done.
    destruct (wallet sdk) as [wl |] eqn:Hwl; [| done].
    destruct (ethProvider wl) as [p |] eqn:Hp; [| done].
    intros [= <-]. by exists sdk, wl.
  - intros (sdk & wl & -> & -> & ->). done.
Qed.

Lemma getFarcasterProvider_standalone w : getFarcasterProvider false w = None.
Proof. reflexivity. Qed.

(** C9. Outside a frame [getProvider] answers the injected wallet, and
    fails with the install-a-wallet message without one.  Inside a frame it
    answers the host bridge when the SDK offers one, otherwise the injected
    wallet, and fails with the no-wallet-found message without either. *)
Theorem getProvider_fallback_order w :
  (∀ injected, ethereum w = Some injected → getProvider false w = Ok injected) ∧
  (ethereum w = None →
     getProvider false w = Throw (ErrorMsg installWalletMessage)) ∧
  (∀ sdk wl bridge,
     loadedSdk w = SdkLoaded (Some sdk) → wallet sdk = Some wl →
     ethProvider wl = Some bridge →
     getProvider true w = Ok bridge) ∧
  (∀ injected,
     getFarcasterProvider true w = None → ethereum w = Some injected →
     getProvider true w = Ok injected) ∧
  (getFarcasterProvider true w = None → ethereum w = None →
     getProvider true w = Throw (ErrorMsg noWalletMessage)).
Proof.
  unfold getProvider. simpl. split_and!.
  - by intros injected ->.
  - by intros ->.
  - intros sdk wl bridge Hsdk Hwl Hp.
    assert (getFarcasterProvider true w = Some bridge) as ->; [| done].
    apply getFarcasterProvider_Some. by exists sdk, wl.
  - by intros injected -> ->.
  - by intros -> ->.
Qed.

(** C10. When reading [window.top] throws, the frame detection answers
    that the page is embedded; the earlier detection does so as well
    whenever the SDK gives no definite answer of its own. *)
Theorem cross_origin_is_frame w :
  top w = TopThrows →
  detectFarcasterFrame w = true ∧
  ((∀ sdk b, loadedSdk w = SdkLoaded (Some sdk) →
             isInMiniApp sdk ≠ Some (QueryAnswers b)) →
   detectMiniApp w = true).
Proof.
  intros Htop. unfold detectFarcasterFrame, detectMiniApp. rewrite Htop.
  split; [done |]. intros Hno.
  destruct (loadedSdk w) as [| [sdk |]]; try done.
  destruct (isInMiniApp sdk) as [[| | b] |] eqn:Hq; try done.
  by destruct (Hno sdk b).
Qed.

End ProviderFacts.

Lemma getProvider_fallback_order_witness :
  getProvider false (mkWindow TopIsSelf [] (Some "injected"%string) (SdkLoaded None))
    = Ok "injected"%string ∧
  getProvider false (mkWindow (Provider := string) TopIsSelf [] None (SdkLoaded None))
    = Throw (ErrorMsg installWalletMessage) ∧
  getProvider true
    (mkWindow TopIsOther [] (Some "injected"%string)
       (SdkLoaded (Some (mkSdk None (Some (mkWallet (Some "bridge"%string)))))))
    = Ok "bridge"%string ∧
  getProvider true
    (mkWindow TopIsOther [] (Some "injected"%string)
       (SdkLoaded (Some (mkSdk None None))))
    = Ok "injected"%string ∧
  getProvider true (mkWindow (Provider := string) TopIsOther [] None SdkThrows)
    = Throw (ErrorMsg noWalletMessage).
Proof.
  split_and!.
  - by apply (proj1 (getProvider_fallback_order _)).
  - by apply (proj1 (proj2 (getProvider_fallback_order _))).
  - by eapply (proj1 (proj2 (proj2 (getProvider_fallback_order _)))).
  - by apply (proj1 (proj2 (proj2 (proj2 (getProvider_fallback_order _))))).
  - by apply (proj2 (proj2 (proj2 (proj2 (getProvider_fallback_order _))))).
Defined.

Lemma cross_origin_is_frame_witness :
  detectFarcasterFrame (mkWindow (Provider := string) TopThrows [] None (SdkLoaded None))
    = true ∧
  detectMiniApp (mkWindow (Provider := string) TopThrows [] None (SdkLoaded None))
    = true.
Proof.
  destruct (cross_origin_is_frame
              (mkWindow (Provider := string) TopThrows [] None (SdkLoaded None))
              eq_refl) as [Hframe Hmini].
  split; [exact Hframe |]. apply Hmini. intros sdk b Hsdk. discriminate Hsdk.
Defined.

Example frame_by_url_parameter :
  detectFarcasterFrame
    (mkWindow (Provider := string) TopIsSelf [("fid", "42")]%string None (SdkLoaded None))
  = true.
Proof. reflexivity. Qed.

Example standalone_page :
  detectFarcasterFrame
    (mkWindow (Provider := string) TopIsSelf [("user", "0xabc")]%string None (SdkLoaded None))
  = false.
Proof. reflexivity. Qed.

(** * More of the script *)

(** ** Dates and the streak *)

Section MoreStreakFacts.

Lemma isDateString_dayOf s :
  isDateString s = true →
  ∃ c, valid_civil c = true ∧ s = isoDate c ∧ dayOf s = MakeDay c.
Proof.
  intros (c & Hv & ->)%isDateString_spec. exists c.
  by rewrite dayOf_isoDate.
Qed.

Lemma date_string_le s1 s2 :
  isDateString s1 = true → isDateString s2 = true →
  String.le s1 s2 ↔ dayOf s1 <= dayOf s2.
Proof.
  intros (c1 & Hv1 & -> & ->)%isDateString_dayOf
         (c2 & Hv2 & -> & ->)%isDateString_dayOf.
  by apply isoDate_le.
Qed.

(** Sorting check-in dates by code unit, as [saveCheckIn] and
    [calculateStreak] do, puts them in the order of the calendar. *)
Theorem sort_is_chronological dates :
  Forall (λ s, isDateString s = true) dates →
  sort dates ≡ₚ dates ∧
  StronglySorted (λ a b, dayOf a <= dayOf b) (sort dates).
Proof.
  intros Hv. split; [apply sort_perm |].
  assert (Forall (λ s, isDateString s = true) (sort dates)) as Hv'.
  { by rewrite sort_perm. }
  pose proof (sort_sorted dates) as Hs.
  induction Hs as [|a l Hs IH Ha]; [constructor |].
  apply Forall_cons in Hv' as [Hva Hvl].
  constructor; [by apply IH |].
  rewrite Forall_forall in Ha, Hvl |- *. intros b Hb.
  apply date_string_le; [done | by apply Hvl | by apply Ha].
Qed.

Lemma sort_is_chronological_witness :
  sort ["2024-03-01"; "2023-12-31"; "2024-02-29"]%string
    ≡ₚ ["2024-03-01"; "2023-12-31"; "2024-02-29"]%string ∧
  StronglySorted (λ a b, dayOf a <= dayOf b)
    (sort ["2024-03-01"; "2023-12-31"; "2024-02-29"]%string).
Proof. apply sort_is_chronological. repeat constructor. Defined.

Lemma isDateString_toISODate t :
  printableDay (Day t) = true →
  isDateString (toISODate t) = true ∧ dayOf (toISODate t) = Day t.
Proof.
  intros [Hv Hd]%civilFromDay_spec. unfold toISODate. split.
  - apply isDateString_spec. by eexists.
  - by rewrite dayOf_isoDate.
Qed.

(** The difference that [calculateStreak] computes between the prints of
    two instants is the number of UTC days between them, whatever the times
    of day. *)
Theorem diffDays_of_instants t1 t2 :
  printableDay (Day t1) = true → printableDay (Day t2) = true →
  diffDays (toISODate t1) (toISODate t2) = Some (Day t1 - Day t2).
Proof.
  intros [Hv1 Hd1]%civilFromDay_spec [Hv2 Hd2]%civilFromDay_spec.
  unfold toISODate. rewrite diffDays_isoDate by done. by rewrite Hd1, Hd2.
Qed.

Lemma diffDays_of_instants_witness :
  diffDays (toISODate 1709337599999) (toISODate 1709164800000)
  = Some (Day 1709337599999 - Day 1709164800000).
Proof. apply diffDays_of_instants; reflexivity. Defined.

Lemma streakLoop_le l n : (streakLoop l n ≤ n + pred (length l))%nat.
Proof.
  revert n. induction l as [|a l IH]; intros n; [simpl; lia |].
  destruct l as [|b l]; [simpl; lia |].
  rewrite streakLoop_cons. case_decide.
  - etrans; [apply IH |]. simpl. lia.
  - simpl. lia.
Qed.

Lemma calculateStreak_bound c dates :
  (calculateStreak c dates ≤ length dates)%nat.
Proof.
  unfold calculateStreak. destruct (length dates =? 0)%nat; [lia |].
  assert (length (reverse (sort dates)) = length dates) as Hlen.
  { by rewrite length_reverse, sort_perm. }
  destruct (reverse (sort dates)) as [|first rest] eqn:Hsorted; [lia |].
  destruct (_ && _); [lia |].
  etrans; [apply streakLoop_le |]. rewrite <- Hlen. simpl. lia.
Qed.

(** The streak never exceeds the number of dates, whatever the strings and
    whatever the clock. *)
Theorem calculateStreak_le_length c dates :
  (calculateStreak c dates ≤ length dates)%nat.
Proof. apply calculateStreak_bound. Qed.

(** The streak does not depend on the order in which the dates are kept. *)
Theorem calculateStreak_perm c dates1 dates2 :
  dates1 ≡ₚ dates2 → calculateStreak c dates1 = calculateStreak c dates2.
Proof.
  intros Hp. unfold calculateStreak.
  rewrite (Permutation_length Hp).
  assert (sort dates1 = sort dates2) as ->; [| done].
  apply sort_unique; [| apply sort_sorted]. by rewrite sort_perm.
Qed.

Lemma calculateStreak_perm_witness :
  calculateStreak (utcNoon 2024 3 1) ["2024-03-01"; "2024-02-29"]%string
  = calculateStreak (utcNoon 2024 3 1) ["2024-02-29"; "2024-03-01"]%string.
Proof. apply calculateStreak_perm. apply perm_swap. Defined.

Lemma clock_date_strings c :
  steady_clock c = true →
  isDateString (getTodayString c) = true ∧
  isDateString (getYesterdayString c) = true ∧
  dayOf (getTodayString c) = Day (now c) ∧
  dayOf (getYesterdayString c) = Day (now c) - 1.
Proof.
  intros Hc. pose proof (steady_clock_spec c Hc) as (Ht & Hy & Hstep).
  rewrite getTodayString_utcToday, getYesterdayString_localDayBefore.
  rewrite !dayOf_isoDate, Hstep by done.
  assert (MakeDay (utcToday c) = Day (now c)) as ->.
  { unfold steady_clock in Hc. rewrite !andb_true_iff in Hc.
    destruct Hc as [[[_ Hp] _] _]. by destruct (civilFromDay_spec _ Hp). }
  split_and!; try done; apply isDateString_spec.
  - by exists (utcToday c).
  - by exists (localDayBefore c).
Qed.

(** On a steady clock the two date utilities print calendar dates: today
    is the UTC day of the clock and yesterday is the day before it. *)
Theorem today_and_yesterday c :
  steady_clock c = true →
  isDateString (getTodayString c) = true ∧
  isDateString (getYesterdayString c) = true ∧
  dayOf (getTodayString c) = Day (now c) ∧
  dayOf (getYesterdayString c) = Day (now c) - 1.
Proof. apply clock_date_strings. Qed.

Lemma today_and_yesterday_witness :
  isDateString (getTodayString (clockAt 2024 3 1 20 32400000)) = true ∧
  isDateString (getYesterdayString (clockAt 2024 3 1 20 32400000)) = true ∧
  dayOf (getTodayString (clockAt 2024 3 1 20 32400000))
    = Day (now (clockAt 2024 3 1 20 32400000)) ∧
  dayOf (getYesterdayString (clockAt 2024 3 1 20 32400000))
    = Day (now (clockAt 2024 3 1 20 32400000)) - 1.
Proof. apply today_and_yesterday. reflexivity. Defined.

End MoreStreakFacts.

(** ** The ledger *)

Section MoreLedgerFacts.

(** On a clock within the years that print as four digits, in any zone:
    a check-in made today on top of a record whose run of consecutive days
    up to yesterday has length [k] stores the streak [k + 1]; with [k = 0],
    that is after a gap, the streak starts again at 1.  Today's date is
    then the most recent one, so the print of yesterday plays no part. *)
Theorem streak_grows_by_one c w s item item' r0 (k : nat) :
  printableDay (Day (now c)) = true →
  getUserData w item = Ok r0 →
  Forall (λ d, isDateString d = true) (dates r0) → NoDup (dates r0) →
  (∀ d, d ∈ dates r0 → dayOf d < dayOf (getTodayString c)) →
  is_streak (dayOf <$> dates r0) (dayOf (getTodayString c) - 1) k →
  saveCheckIn c w (getTodayString c) s item = Ok item' →
  ∃ r1, getUserData w item' = Ok r1 ∧ streak r1 = S k.
Proof.
  intros Hc Hget Hv Hnd Hbefore [Hin Hout]
    (allData & r1 & Hp & -> & Hd & Hs & _)%saveCheckIn_spec.
  unfold getUserData in Hget. rewrite Hp in Hget. injection Hget as Hr0.
  rewrite Hr0 in Hd. clear Hr0 Hp.
  exists r1. rewrite getUserData_JsonText, lookup_insert_eq. split; [done |].
  set (today := getTodayString c) in *.
  assert (today ∉ dates r0) as Hfresh.
  { intros Hmem. specialize (Hbefore _ Hmem). lia. }
  rewrite bool_decide_eq_false_2 in Hd by done.
  assert (dates r1 ≡ₚ today :: dates r0) as Hperm.
  { rewrite Hd, sort_perm. by rewrite Permutation_app_comm. }
  destruct (isDateString_toISODate (now c) Hc) as (Htoday & _).
  rewrite Hs.
  apply (is_streak_unique (dayOf <$> dates r1) (dayOf today)).
  - apply calculateStreak_today_dates.
    + rewrite Hperm. constructor; [exact Htoday | done].
    + rewrite Hperm. by constructor.
    + rewrite Hperm. by left.
    + intros d. rewrite Hperm. intros [-> | Hmem]%elem_of_cons; [done |].
      specialize (Hbefore _ Hmem). fold today. lia.
  - apply (is_streak_perm (dayOf <$> today :: dates r0)); [by rewrite Hperm |].
    rewrite fmap_cons. split.
    + intros [|j] Hj; [rewrite Z.sub_0_r; by left |]. right.
      replace (dayOf today - Z.of_nat (S j))
        with (dayOf today - 1 - Z.of_nat j) by lia.
      apply Hin. lia.
    + intros [Heq | Hmem]%elem_of_cons; [lia |]. apply Hout.
      by replace (dayOf today - 1 - Z.of_nat k)
        with (dayOf today - Z.of_nat (S k)) by lia.
Qed.

Lemma streak_grows_by_one_witness :
  ∃ r1, getUserData "0xabc"
          (Some (JsonText
             (<["0xabc"%string :=
                  mkUserData ["2024-10-26"; "2024-10-27"; "2024-10-28"]%string 3 3
                    (Some "2024-10-28"%string)
                    (<["2024-10-28"%string := "0x03"%string]>
                       {["2024-10-26"%string := "0x01"%string;
                         "2024-10-27"%string := "0x02"%string]})]>
              (<["0xabc"%string :=
                  mkUserData ["2024-10-26"; "2024-10-27"]%string 2 2
                    (Some "2024-10-27"%string)
                    {["2024-10-26"%string := "0x01"%string;
                      "2024-10-27"%string := "0x02"%string]}]> ∅)))) = Ok r1 ∧
        streak r1 = 3%nat.
Proof.
  apply (streak_grows_by_one londonAfterSummerTime "0xabc"%string "0x03"%string
           (Some (JsonText
              (<["0xabc"%string :=
                  mkUserData ["2024-10-26"; "2024-10-27"]%string 2 2
                    (Some "2024-10-27"%string)
                    {["2024-10-26"%string := "0x01"%string;
                      "2024-10-27"%string := "0x02"%string]}]> ∅)))
           _ (mkUserData ["2024-10-26"; "2024-10-27"]%string 2 2
                (Some "2024-10-27"%string)
                {["2024-10-26"%string := "0x01"%string;
                  "2024-10-27"%string := "0x02"%string]}) 2).
  - reflexivity.
  - vm_compute. reflexivity.
  - repeat constructor.
  - by_compute.
  - apply Forall_forall. repeat constructor; vm_compute; reflexivity.
  - split.
    + intros [|[|j]] Hj; [by_compute | by_compute | lia].
    + by_compute.
  - vm_compute. reflexivity.
Defined.

(** A save for one wallet leaves the record of every wallet with another
    lower-case key as it was. *)
Theorem saveCheckIn_other_wallets c w d s item item' w' :
  saveCheckIn c w d s item = Ok item' →
  toLowerCase w' ≠ toLowerCase w →
  getUserData w' item' = getUserData w' item.
Proof. apply getUserData_other. Qed.

Lemma saveCheckIn_other_wallets_witness :
  getUserData "0xDEF"
    (Some (JsonText
       (<["0xabc"%string :=
            mkUserData ["2024-03-01"%string] 1 1 (Some "2024-03-01"%string)
              {["2024-03-01"%string := "0x5167"%string]}]> ∅)))
  = getUserData "0xDEF" None.
Proof.
  apply (saveCheckIn_other_wallets (utcNoon 2024 3 1) "0xAbC"%string
           "2024-03-01"%string "0x5167"%string).
  - vm_compute. reflexivity.
  - vm_compute. discriminate.
Defined.

(** Saving the same check-in again at the same clock changes nothing. *)
Theorem saveCheckIn_idempotent c w d s item item' :
  saveCheckIn c w d s item = Ok item' →
  saveCheckIn c w d s item' = Ok item'.
Proof.
  intros (allData & r1 & Hp & -> & Hd & Hs & Ht & Hl & Hsig)%saveCheckIn_spec.
  assert (d ∈ dates r1) as Hin.
  { rewrite Hd. case_bool_decide; [done |].
    rewrite sort_perm. apply elem_of_app. right. by apply list_elem_of_singleton. }
  unfold saveCheckIn. simpl. rewrite lookup_insert_eq. simpl.
  rewrite bool_decide_eq_true_2 by done.
  rewrite <- Hs, <- Ht, <- Hl.
  replace (<[d:=s]> (signatures r1)) with (signatures r1)
    by (by rewrite Hsig, insert_insert_eq).
  rewrite insert_insert_eq. by destruct r1.
Qed.

Lemma saveCheckIn_idempotent_witness :
  saveCheckIn (utcNoon 2024 3 1) "0xAbC" "2024-03-01" "0x5167"
    (Some (JsonText
       (<["0xabc"%string :=
            mkUserData ["2024-03-01"%string] 1 1 (Some "2024-03-01"%string)
              {["2024-03-01"%string := "0x5167"%string]}]> ∅)))
  = Ok (Some (JsonText
       (<["0xabc"%string :=
            mkUserData ["2024-03-01"%string] 1 1 (Some "2024-03-01"%string)
              {["2024-03-01"%string := "0x5167"%string]}]> ∅))).
Proof.
  apply (saveCheckIn_idempotent _ _ _ _ None). vm_compute. reflexivity.
Defined.

(** A save loses nothing: every date recorded before is still recorded,
    and the signature of every other date is the one it was. *)
Theorem saveCheckIn_keeps_history c w d s item item' r0 :
  getUserData w item = Ok r0 →
  saveCheckIn c w d s item = Ok item' →
  ∃ r1, getUserData w item' = Ok r1 ∧
        (∀ d0, d0 ∈ dates r0 → d0 ∈ dates r1) ∧
        (∀ d0, d0 ≠ d → signatures r1 !! d0 = signatures r0 !! d0) ∧
        (∀ d1, d1 ∈ dates r1 → d1 = d ∨ d1 ∈ dates r0).
Proof.
  intros Hget (allData & r1 & Hp & -> & Hd & _ & _ & _ & Hsig)%saveCheckIn_spec.
  unfold getUserData in Hget. rewrite Hp in Hget. injection Hget as Hr0.
  rewrite Hr0 in Hd, Hsig.
  exists r1. rewrite getUserData_JsonText, lookup_insert_eq. simpl.
  split_and!; [done | | |].
  - intros d0 Hin. rewrite Hd. case_bool_decide; [done |].
    rewrite sort_perm. apply elem_of_app. by left.
  - intros d0 Hne. by rewrite Hsig, lookup_insert_ne.
  - intros d1. rewrite Hd. case_bool_decide; [by right |].
    rewrite sort_perm.
    intros [? | ->%list_elem_of_singleton]%elem_of_app; [by right | by left].
Qed.

Lemma saveCheckIn_keeps_history_witness :
  let r0 :=
    mkUserData ["2024-02-28"; "2024-02-29"]%string 2 2 (Some "2024-02-29"%string)
      {["2024-02-28"%string := "0x01"%string;
        "2024-02-29"%string := "0x02"%string]} in
  ∃ r1, getUserData "0xabc"
          (Some (JsonText
             (<["0xabc"%string :=
                  mkUserData ["2024-02-28"; "2024-02-29"; "2024-03-01"]%string 3 3
                    (Some "2024-03-01"%string)
                    (<["2024-03-01"%string := "0x03"%string]> (signatures r0))]>
              (<["0xabc"%string := r0]> ∅)))) = Ok r1 ∧
        (∀ d0, d0 ∈ dates r0 → d0 ∈ dates r1) ∧
        (∀ d0, d0 ≠ "2024-03-01"%string →
               signatures r1 !! d0 = signatures r0 !! d0) ∧
        (∀ d1, d1 ∈ dates r1 → d1 = "2024-03-01"%string ∨ d1 ∈ dates r0).
Proof.
  intros r0.
  apply (saveCheckIn_keeps_history (utcNoon 2024 3 1) "0xabc"%string
           "2024-03-01"%string "0x03"%string
           (Some (JsonText (<["0xabc"%string := r0]> ∅))) _ r0).
  - reflexivity.
  - vm_compute. reflexivity.
Defined.

(** The step of [saveCheckIn] on the dates of a record. *)
Lemma add_date_comm (l : list string) d1 d2 :
  let add d l := if bool_decide (d ∈ l) then l else sort (l ++ [d]) in
  add d2 (add d1 l) = add d1 (add d2 l).
Proof.
  simpl.
  destruct (decide (d1 = d2)) as [-> | Hne]; [done |].
  destruct (decide (d1 ∈ l)) as [H1 | H1], (decide (d2 ∈ l)) as [H2 | H2].
  - repeat first [ rewrite (bool_decide_eq_true_2 (d1 ∈ l)) by done
                 | rewrite (bool_decide_eq_true_2 (d2 ∈ l)) by done ].
    done.
  - repeat first [ rewrite (bool_decide_eq_true_2 (d1 ∈ l)) by done
                 | rewrite (bool_decide_eq_false_2 (d2 ∈ l)) by done ].
    rewrite (bool_decide_eq_true_2 (d1 ∈ sort (l ++ [d2]))); [done |].
    rewrite sort_perm. apply elem_of_app. by left.
  - repeat first [ rewrite (bool_decide_eq_true_2 (d2 ∈ l)) by done
                 | rewrite (bool_decide_eq_false_2 (d1 ∈ l)) by done ].
    rewrite (bool_decide_eq_true_2 (d2 ∈ sort (l ++ [d1]))); [done |].
    rewrite sort_perm. apply elem_of_app. by left.
  - repeat first [ rewrite (bool_decide_eq_false_2 (d1 ∈ l)) by done
                 | rewrite (bool_decide_eq_false_2 (d2 ∈ l)) by done ].
    rewrite (bool_decide_eq_false_2 (d2 ∈ sort (l ++ [d1]))),
            (bool_decide_eq_false_2 (d1 ∈ sort (l ++ [d2]))).
    + apply sort_unique; [| apply sort_sorted].
      rewrite !sort_perm, <- !app_assoc. apply Permutation_app_head, perm_swap.
    + rewrite sort_perm. intros [? | ?%list_elem_of_singleton]%elem_of_app; done.
    + rewrite sort_perm. intros [? | ?%list_elem_of_singleton]%elem_of_app; done.
Qed.

(** Two saves for one wallet may come in either order: the dates of the
    record, its total and, when the dates differ, its signatures come out
    the same. *)
Theorem saveCheckIn_order c1 c2 c3 c4 w d1 s1 d2 s2 item item1 item12 item2 item21 :
  saveCheckIn c1 w d1 s1 item = Ok item1 →
  saveCheckIn c2 w d2 s2 item1 = Ok item12 →
  saveCheckIn c3 w d2 s2 item = Ok item2 →
  saveCheckIn c4 w d1 s1 item2 = Ok item21 →
  ∃ r12 r21,
    getUserData w item12 = Ok r12 ∧ getUserData w item21 = Ok r21 ∧
    dates r12 = dates r21 ∧ total r12 = total r21 ∧
    (d1 ≠ d2 → signatures r12 = signatures r21).
Proof.
  intros (allData & r1 & Hp & -> & Hd1 & _ & _ & _ & Hs1)%saveCheckIn_spec
         (? & r12 & [= <-] & -> & Hd12 & _ & Ht12 & _ & Hs12)%saveCheckIn_spec
         (? & r2 & Hp' & -> & Hd2 & _ & _ & _ & Hs2)%saveCheckIn_spec
         (? & r21 & [= <-] & -> & Hd21 & _ & Ht21 & _ & Hs21)%saveCheckIn_spec.
  rewrite Hp in Hp'. injection Hp' as <-.
  rewrite lookup_insert_eq in Hd12, Hs12, Hd21, Hs21. simpl in *.
  exists r12, r21. rewrite !getUserData_JsonText, !lookup_insert_eq. simpl.
  assert (dates r12 = dates r21) as Hdates.
  { rewrite Hd12, Hd21, Hd1, Hd2. apply add_date_comm. }
  split_and!; [done | done | done | by rewrite Ht12, Ht21, Hdates |].
  intros Hne. rewrite Hs12, Hs21, Hs1, Hs2. by apply insert_insert_ne.
Qed.

Lemma saveCheckIn_order_witness :
  ∃ r12 r21,
    getUserData "0xabc"
      (Some (JsonText
         {["0xabc"%string :=
             mkUserData ["2024-03-01"; "2024-03-02"]%string 2 2
               (Some "2024-03-01"%string)
               (<["2024-03-01"%string := "0x01"%string]>
                  {["2024-03-02"%string := "0x02"%string]})]})) = Ok r12 ∧
    getUserData "0xabc"
      (Some (JsonText
         {["0xabc"%string :=
             mkUserData ["2024-03-01"; "2024-03-02"]%string 2 2
               (Some "2024-03-02"%string)
               (<["2024-03-02"%string := "0x02"%string]>
                  {["2024-03-01"%string := "0x01"%string]})]})) = Ok r21 ∧
    dates r12 = dates r21 ∧ total r12 = total r21 ∧
    ("2024-03-02"%string ≠ "2024-03-01"%string →
     signatures r12 = signatures r21).
Proof.
  apply (saveCheckIn_order (utcNoon 2024 3 2) (utcNoon 2024 3 2)
           (utcNoon 2024 3 2) (utcNoon 2024 3 2) "0xabc"%string
           "2024-03-02"%string "0x02"%string "2024-03-01"%string "0x01"%string
           None
           (Some (JsonText
              {["0xabc"%string :=
                  mkUserData ["2024-03-02"%string] 1 1 (Some "2024-03-02"%string)
                    {["2024-03-02"%string := "0x02"%string]}]}))
           _
           (Some (JsonText
              {["0xabc"%string :=
                  mkUserData ["2024-03-01"%string] 1 1 (Some "2024-03-01"%string)
                    {["2024-03-01"%string := "0x01"%string]}]}))
           _); vm_compute; reflexivity.
Defined.

(** Stepping a property of records through a sequence of saves. *)
Lemma saveAll_preserves (P : UserData → Prop) :
  P defaultUserData →
  (∀ c d s r0 r1,
     P r0 →
     dates r1 = (if bool_decide (d ∈ dates r0) then dates r0
                 else sort (dates r0 ++ [d])) →
     streak r1 = calculateStreak c (dates r1) →
     total r1 = length (dates r1) →
     lastDate r1 = Some d →
     signatures r1 = <[d := s]> (signatures r0) →
     P r1) →
  ∀ calls, ∃ item, saveAll calls None = Ok item ∧
                   ∀ w, ∃ r, getUserData w item = Ok r ∧ P r.
Proof.
  intros Hdef Hstep calls.
  assert (∀ item0,
            item0 ≠ Some BadText → item0 ≠ Some NullText →
            (∀ w0 r0, getUserData w0 item0 = Ok r0 → P r0) →
            ∃ item, saveAll calls item0 = Ok item ∧
                    item ≠ Some BadText ∧ item ≠ Some NullText ∧
                    ∀ w r, getUserData w item = Ok r → P r) as Hgen.
  { induction calls as [|[[[c w] d] s] calls IH]; intros item0 Hok Hobj Hinv.
    - by exists item0.
    - destruct (saveCheckIn_total c w d s item0 Hok Hobj) as [item1 Hsave].
      simpl. rewrite Hsave. simpl. apply IH.
      + apply saveCheckIn_spec in Hsave as (? & ? & _ & -> & _). done.
      + apply saveCheckIn_spec in Hsave as (? & ? & _ & -> & _). done.
      + intros w1 r1 Hget.
        destruct (decide (toLowerCase w1 = toLowerCase w)) as [Hw | Hw].
        * apply saveCheckIn_spec in Hsave
            as (allData & r & Hp & -> & Hd & Hs & Ht & Hl & Hsig).
          rewrite getUserData_JsonText, Hw, lookup_insert_eq in Hget.
          injection Hget as <-.
          eapply (Hstep c d s (default defaultUserData (allData !! toLowerCase w)));
            try done.
          apply (Hinv w). unfold getUserData. by rewrite Hp.
        * apply (Hinv w1). by rewrite <- (getUserData_other c w d s item0 item1). }
  destruct (Hgen None) as (item & Hrun & Hok & Hobj & Hinv); [done | done | |].
  { by intros w0 r0 [= <-]. }
  exists item. split; [done |]. intros w.
  destruct (getUserData_total w item Hok Hobj) as [r Hget].
  exists r. split; [done |]. by eapply Hinv.
Qed.

(** In every store that saves build from nothing, the last date of a
    record is one of its dates and is missing only when there are none, and
    the stored streak does not exceed the stored total. *)
Theorem saveAll_lastDate_and_streak calls :
  ∃ item, saveAll calls None = Ok item ∧
          ∀ w, ∃ r, getUserData w item = Ok r ∧
                    lastDate_inv r ∧ (streak r ≤ total r)%nat.
Proof.
  apply (saveAll_preserves (λ r, lastDate_inv r ∧ (streak r ≤ total r)%nat)).
  - split; [done | simpl; lia].
  - intros c d s r0 r1 _ Hd Hs Ht Hl _. split.
    + unfold lastDate_inv. rewrite Hl, Hd. case_bool_decide; [done |].
      rewrite sort_perm. set_solver.
    + rewrite Hs, Ht. apply calculateStreak_bound.
Qed.

(** *** The button handler *)

(** Unless the check-in is recorded, [handleCheckIn] changes nothing: not
    when there is no wallet, not when today is already recorded, not when
    the signature is refused or empty, not when the store does not parse. *)
Theorem handleCheckIn_failure_changes_nothing atClick atSave signed app outcome app1 :
  handleCheckIn atClick atSave signed app = (outcome, app1) →
  outcome ≠ CheckedIn →
  app1 = app.
Proof.
  unfold handleCheckIn.
  destruct (currentWallet app) as [wallet |]; [| by intros [= <- <-]].
  case_decide; [by intros [= <- <-] |].
  destruct (getUserData wallet (localStorage app)); [| by intros [= <- <-]].
  case_bool_decide; [by intros [= <- <-] |].
  destruct signed as [signature |]; [| by intros [= <- <-]].
  case_decide; [by intros [= <- <-] |].
  destruct (saveCheckIn _ _ _ _ _); [| by intros [= <- <-]].
  by intros [= <- <-].
Qed.

Lemma handleCheckIn_failure_changes_nothing_witness :
  mkApp (Some "0xAbC"%string) None = mkApp (Some "0xAbC"%string) None.
Proof.
  apply (handleCheckIn_failure_changes_nothing (utcNoon 2024 3 1)
           (utcNoon 2024 3 1) None (mkApp (Some "0xAbC"%string) None)
           CheckInFailed).
  - reflexivity.
  - discriminate.
Defined.

(** A recorded check-in adds exactly today's date to the wallet's record:
    today was not there, the new dates are today and the old ones, the
    total is their number, today is the last date, the wallet stays
    connected and the records of the other wallets are untouched. *)
Theorem handleCheckIn_records_today atClick atSave signed app app1 :
  handleCheckIn atClick atSave signed app = (CheckedIn, app1) →
  ∃ wallet signature r0 r1,
    currentWallet app = Some wallet ∧ currentWallet app1 = Some wallet ∧
    signed = Some signature ∧
    getUserData wallet (localStorage app) = Ok r0 ∧
    getUserData wallet (localStorage app1) = Ok r1 ∧
    (getTodayString atClick ∉ dates r0) ∧
    (dates r1 ≡ₚ getTodayString atClick :: dates r0) ∧
    total r1 = S (length (dates r0)) ∧
    lastDate r1 = Some (getTodayString atClick) ∧
    signatures r1 = <[getTodayString atClick := signature]> (signatures r0) ∧
    (∀ w', toLowerCase w' ≠ toLowerCase wallet →
           getUserData w' (localStorage app1) = getUserData w' (localStorage app)).
Proof.
  unfold handleCheckIn.
  destruct (currentWallet app) as [wallet |] eqn:Hw; [| done].
  case_decide; [done |].
  destruct (getUserData wallet (localStorage app)) as [r0 |] eqn:Hget; [| done].
  case_bool_decide as Hfresh; [done |].
  destruct signed as [signature |]; [| done].
  case_decide; [done |].
  destruct (saveCheckIn _ _ _ _ _) as [item |] eqn:Hsave; [| done].
  intros [= <-]. simpl.
  pose proof (λ w', getUserData_other _ _ _ _ _ _ w' Hsave) as Hother.
  apply saveCheckIn_spec in Hsave
    as (allData & r1 & Hp & -> & Hd & _ & Ht & Hl & Hsig).
  pose proof Hget as Hget0.
  unfold getUserData in Hget. rewrite Hp in Hget. injection Hget as Hr0.
  rewrite Hr0 in Hd, Hsig. rewrite bool_decide_eq_false_2 in Hd by done.
  exists wallet, signature, r0, r1.
  rewrite getUserData_JsonText, lookup_insert_eq. simpl.
  assert (dates r1 ≡ₚ getTodayString atClick :: dates r0) as Hperm.
  { rewrite Hd, sort_perm. by rewrite Permutation_app_comm. }
  split_and!; try done. by rewrite Ht, Hperm.
Qed.

Lemma handleCheckIn_records_today_witness :
  ∃ wallet signature r0 r1,
    currentWallet (mkApp (Some "0xAbC"%string) None) = Some wallet ∧
    currentWallet
      (handleCheckIn (utcNoon 2024 3 1) (utcNoon 2024 3 1) (Some "0x5167"%string)
         (mkApp (Some "0xAbC"%string) None)).2 = Some wallet ∧
    Some "0x5167"%string = Some signature ∧
    getUserData wallet (localStorage (mkApp (Some "0xAbC"%string) None)) = Ok r0 ∧
    getUserData wallet
      (localStorage
         (handleCheckIn (utcNoon 2024 3 1) (utcNoon 2024 3 1) (Some "0x5167"%string)
            (mkApp (Some "0xAbC"%string) None)).2) = Ok r1 ∧
    (getTodayString (utcNoon 2024 3 1) ∉ dates r0) ∧
    (dates r1 ≡ₚ getTodayString (utcNoon 2024 3 1) :: dates r0) ∧
    total r1 = S (length (dates r0)) ∧
    lastDate r1 = Some (getTodayString (utcNoon 2024 3 1)) ∧
    signatures r1 = <[getTodayString (utcNoon 2024 3 1) := signature]> (signatures r0) ∧
    (∀ w', toLowerCase w' ≠ toLowerCase wallet →
           getUserData w'
             (localStorage
                (handleCheckIn (utcNoon 2024 3 1) (utcNoon 2024 3 1)
                   (Some "0x5167"%string) (mkApp (Some "0xAbC"%string) None)).2)
           = getUserData w' (localStorage (mkApp (Some "0xAbC"%string) None))).
Proof.
  apply (handleCheckIn_records_today (utcNoon 2024 3 1) (utcNoon 2024 3 1)).
  vm_compute. reflexivity.
Defined.

(** On a store that does not parse nothing is written: [saveCheckIn]
    throws the parser's error, and [handleCheckIn] lets it leave the handler
    before any signature is looked at. *)
Theorem corrupt_store_is_never_written c atSave w d s signed app :
  localStorage app = Some BadText →
  currentWallet app = Some w → w ≠ EmptyString →
  saveCheckIn c w d s (localStorage app) = Throw SyntaxError ∧
  handleCheckIn c atSave signed app = (Crashed SyntaxError, app).
Proof.
  intros Hbad Hw Hne. unfold handleCheckIn. rewrite Hw, Hbad.
  by rewrite decide_False.
Qed.

Lemma corrupt_store_is_never_written_witness :
  saveCheckIn (utcNoon 2024 3 1) "0xabc" "2024-03-01" "0x5167"
    (localStorage (mkApp (Some "0xabc"%string) (Some BadText))) = Throw SyntaxError ∧
  handleCheckIn (utcNoon 2024 3 1) (utcNoon 2024 3 1) (Some "0x5167"%string)
    (mkApp (Some "0xabc"%string) (Some BadText))
  = (Crashed SyntaxError, mkApp (Some "0xabc"%string) (Some BadText)).
Proof.
  apply corrupt_store_is_never_written; [reflexivity | reflexivity | discriminate].
Defined.

End MoreLedgerFacts.

(** ** The signed message *)

Section MessageFacts.

Lemma append_cons a s t : String a s +:+ t = String a (s +:+ t).
Proof. reflexivity. Qed.

Lemma append_nil t : EmptyString +:+ t = t.
Proof. reflexivity. Qed.

Lemma length_append s t :
  String.length (s +:+ t) = (String.length s + String.length t)%nat.
Proof.
  induction s as [|a s IH]; [done |].
  rewrite append_cons. simpl. by rewrite IH.
Qed.

Lemma append_assoc s t u : (s +:+ t) +:+ u = s +:+ (t +:+ u).
Proof.
  induction s as [|a s IH]; [done |]. rewrite !append_cons. by rewrite IH.
Qed.

(** Two texts with equal ends of the same length have equal beginnings. *)
Lemma append_eq_length s1 s2 t1 t2 :
  s1 +:+ t1 = s2 +:+ t2 → String.length t1 = String.length t2 →
  s1 = s2 ∧ t1 = t2.
Proof.
  revert s2. induction s1 as [|a s1 IH]; intros [|b s2] Heq Hlen;
    rewrite ?append_cons, ?append_nil in Heq.
  - done.
  - rewrite Heq in Hlen. simpl in Hlen. rewrite length_append in Hlen. lia.
  - rewrite <- Heq in Hlen. simpl in Hlen. rewrite length_append in Hlen. lia.
  - injection Heq as -> Heq. destruct (IH s2 Heq Hlen) as [-> ->]. done.
Qed.

Lemma append_empty_r s : s +:+ EmptyString = s.
Proof. induction s as [|a s IH]; [done |]. rewrite append_cons. by rewrite IH. Qed.

Lemma toHexLoop_append str result :
  toHexLoop str result = result +:+ toHexLoop str EmptyString.
Proof.
  revert result. induction str as [|a str IH]; intros result.
  - simpl. by rewrite append_empty_r.
  - cbn [toHexLoop].
    rewrite (IH (result +:+ hexByte a)), (IH (EmptyString +:+ hexByte a)).
    rewrite append_nil. apply append_assoc.
Qed.

Lemma toHex_cons a str :
  toHexLoop (String a str) EmptyString = hexByte a +:+ toHexLoop str EmptyString.
Proof. cbn [toHexLoop]. rewrite append_nil. apply toHexLoop_append. Qed.

Lemma hexDigit_inj x y : (x < 16)%N → (y < 16)%N → hexDigit x = hexDigit y → x = y.
Proof.
  intros Hx Hy Heq. apply (f_equal N_of_ascii) in Heq. unfold hexDigit in Heq.
  destruct (N.ltb_spec x 10), (N.ltb_spec y 10);
    rewrite !N_ascii_embedding in Heq by lia; lia.
Qed.

Lemma hexByte_inj a b : hexByte a = hexByte b → a = b.
Proof.
  unfold hexByte. intros [= H1 H2].
  pose proof (N_ascii_bounded a). pose proof (N_ascii_bounded b).
  apply hexDigit_inj in H1; [| apply N.Div0.div_lt_upper_bound; lia ..].
  apply hexDigit_inj in H2; [| apply N.mod_lt; lia ..].
  rewrite <- (ascii_N_embedding a), <- (ascii_N_embedding b). f_equal.
  rewrite (N.div_mod (N_of_ascii a) 16), (N.div_mod (N_of_ascii b) 16) by lia.
  by rewrite H1, H2.
Qed.

Lemma toHex_length str :
  String.length (toHex str) = (2 + 2 * String.length str)%nat.
Proof.
  unfold toHex. rewrite toHexLoop_append, length_append. simpl.
  induction str as [|a str IH]; [done |].
  rewrite toHex_cons, length_append. simpl. lia.
Qed.

Lemma toHex_inj str1 str2 : toHex str1 = toHex str2 → str1 = str2.
Proof.
  unfold toHex. rewrite (toHexLoop_append str1), (toHexLoop_append str2).
  intros Heq%(inj (String.app "0x")).
  revert str2 Heq. induction str1 as [|a str1 IH]; intros [|b str2] Heq.
  - done.
  - rewrite toHex_cons in Heq. done.
  - rewrite toHex_cons in Heq. done.
  - rewrite !toHex_cons in Heq. unfold hexByte in Heq.
    rewrite !append_cons, !append_nil in Heq.
    injection Heq as H1 H2 Heq.
    rewrite (hexByte_inj a b) by (unfold hexByte; congruence).
    f_equal. by apply IH.
Qed.

(** On the code units below 256 the digits that the script writes for a
    code unit are those of [hexByte]. *)
Lemma hexByte_codeUnit a : padStart2 (toString16 (N_of_ascii a)) = hexByte a.
Proof. destruct a as [[] [] [] [] [] [] [] []]; reflexivity. Qed.

Lemma toHexUnitsLoop_codeUnits str result :
  toHexUnitsLoop (codeUnits str) result = toHexLoop str result.
Proof.
  revert result. induction str as [|a str IH]; intros result; [done |].
  unfold codeUnits in *. cbn [list_ascii_of_string fmap list_fmap toHexUnitsLoop toHexLoop].
  rewrite hexByte_codeUnit. apply IH.
Qed.

Lemma toHex_codeUnits str : toHex str = toHexUnits (codeUnits str).
Proof. unfold toHex, toHexUnits. by rewrite toHexUnitsLoop_codeUnits. Qed.

Lemma codeUnits_length str : length (codeUnits str) = String.length str.
Proof.
  unfold codeUnits. rewrite length_fmap.
  induction str as [|a str IH]; [done |]. simpl. by rewrite IH.
Qed.

(** Every sequence of code units below 256 is a string of this
    development. *)
Lemma codeUnits_below units :
  Forall (λ u, (u < 256)%N) units → ∃ str, units = codeUnits str.
Proof.
  induction 1 as [|u units Hu _ [str ->]]; [by exists EmptyString |].
  exists (String (ascii_of_N u) str). unfold codeUnits.
  cbn [list_ascii_of_string fmap list_fmap]. by rewrite N_ascii_embedding.
Qed.

(** [toHex] writes [0x] and then the digits of each code unit, at least
    two.  On strings of code units below 256 that is two digits for each,
    and any two such strings are told apart; beyond, the digits of the
    code unit 1234 are those of the two code units 12 and 34 (in base 16),
    so two different strings are written alike. *)
Theorem toHex_length_and_inj :
  (∀ str, toHex str = toHexUnits (codeUnits str)) ∧
  (∀ units, Forall (λ u, (u < 256)%N) units →
     String.length (toHexUnits units) = (2 + 2 * length units)%nat) ∧
  (∀ units1 units2,
     Forall (λ u, (u < 256)%N) units1 → Forall (λ u, (u < 256)%N) units2 →
     toHexUnits units1 = toHexUnits units2 → units1 = units2) ∧
  toHexUnits [4660%N] = "0x1234"%string ∧
  toHexUnits [18%N; 52%N] = "0x1234"%string.
Proof.
  split_and!; [apply toHex_codeUnits | | | done | done].
  - intros units [str ->]%codeUnits_below.
    by rewrite <- toHex_codeUnits, toHex_length, codeUnits_length.
  - intros units1 units2 [str1 ->]%codeUnits_below [str2 ->]%codeUnits_below.
    rewrite <- !toHex_codeUnits. by intros ->%toHex_inj.
Qed.

Lemma toHex_length_and_inj_witness :
  String.length (toHexUnits [66; 97; 115; 101]%N) = 10%nat ∧
  [66; 97]%N = [66; 97]%N.
Proof.
  split.
  - apply (proj1 (proj2 toHex_length_and_inj) [66; 97; 115; 101]%N).
    repeat constructor.
  - apply (proj1 (proj2 (proj2 toHex_length_and_inj)) [66; 97]%N [66; 97]%N);
      [repeat constructor | repeat constructor | reflexivity].
Defined.

Lemma isDateString_length s : isDateString s = true → String.length s = 10%nat.
Proof. by intros (c & _ & ->)%isDateString_spec. Qed.

(** The texts signed for two check-ins are equal only when the wallet, as
    it is spelled, and the date are the same. *)
Theorem signed_message_inj wallet1 today1 wallet2 today2 :
  isDateString today1 = true → isDateString today2 = true →
  toHex (checkInMessage wallet1 today1) = toHex (checkInMessage wallet2 today2) →
  wallet1 = wallet2 ∧ today1 = today2.
Proof.
  intros H1%isDateString_length H2%isDateString_length Heq%toHex_inj.
  unfold checkInMessage in Heq. apply (inj (String.app _)) in Heq.
  rewrite <- !append_assoc in Heq.
  apply append_eq_length in Heq as [Heq ->]; [| congruence].
  by apply append_eq_length in Heq as [-> _].
Qed.

Lemma signed_message_inj_witness :
  "0xAbC"%string = "0xAbC"%string ∧ "2024-03-01"%string = "2024-03-01"%string.
Proof. apply signed_message_inj; reflexivity. Defined.

Example toHex_message :
  toHex "Base" = "0x42617365"%string ∧
  checkInMessage "0xAbC" "2024-03-01" = "Base Check-In | 0xAbC | 2024-03-01"%string.
Proof. by vm_compute. Qed.

End MessageFacts.

(** ** The screens *)

Section ViewFacts.

Lemma substring_0_append p r :
  substring 0 (String.length p) (p +:+ r) = p.
Proof.
  induction p as [|a p IH]; [by destruct r |].
  rewrite append_cons. simpl. by rewrite IH.
Qed.

Lemma substring_skip p r m :
  substring (String.length p) m (p +:+ r) = substring 0 m r.
Proof.
  induction p as [|a p IH]; [done |]. rewrite append_cons. simpl. apply IH.
Qed.

Lemma substring_0_all q : substring 0 (String.length q) q = q.
Proof. induction q as [|a q IH]; simpl; [done | by rewrite IH]. Qed.

(** An address that begins with the six characters [p] and ends with the
    four characters [q] is shown as [p], three dots and [q]; no address
    shows as nothing. *)
Theorem formatAddress_long p mid q :
  String.length p = 6%nat → String.length q = 4%nat →
  formatAddress (p +:+ mid +:+ q) = p +:+ "..." +:+ q.
Proof.
  intros Hp Hq. unfold formatAddress.
  rewrite decide_False by (destruct p; [done | discriminate]).
  f_equal.
  - rewrite <- Hp. apply substring_0_append.
  - f_equal. rewrite <- append_assoc, length_append, Hq.
    replace (String.length (p +:+ mid) + 4 - 4)%nat
      with (String.length (p +:+ mid)) by lia.
    rewrite substring_skip, <- Hq. apply substring_0_all.
Qed.

Lemma formatAddress_long_witness :
  formatAddress ("0x1234" +:+ "567890abcdef" +:+ "cafe") = "0x1234...cafe"%string.
Proof. apply (formatAddress_long "0x1234" "567890abcdef" "cafe"); reflexivity. Defined.

(** On a clock in a zone of fixed offset, [setDate] moves a date by whole
    days. *)
Lemma setDate_shift c tza t k :
  fixed_zone c tza → printableDay (Day (t + tza)) = true →
  setDate c t (getDate c t + k) = t + k * msPerDay.
Proof.
  intros Hz Hp. unfold setDate, getDate.
  assert (LocalTime c t = t + tza) as -> by (unfold LocalTime; by rewrite Hz).
  destruct (civilFromDay_spec _ Hp) as [_ Hday].
  revert Hday. generalize (civilFromDay (Day (t + tza))). intros cv Hday.
  assert (MakeDay (mkCivil (year cv) (month cv) (day cv + k)) = Day (t + tza) + k)
    as ->.
  { rewrite <- Hday. unfold MakeDay. cbn [year month day]. lia. }
  unfold UTC. rewrite Hz.
  unfold Day, TimeWithinDay, msPerDay. Z.div_mod_to_equations. lia.
Qed.

Lemma Day_shift t k : Day (t + k * msPerDay) = Day t + k.
Proof. unfold Day, msPerDay. Z.div_mod_to_equations. lia. Qed.

Lemma Day_near t tza :
  - msPerDay <= tza <= msPerDay → Day t - 1 <= Day (t + tza) <= Day t + 1.
Proof. unfold Day, msPerDay. intros. Z.div_mod_to_equations. lia. Qed.

(** The date that cell [i] of the calendar stands for. *)
Lemma calendar_date c tza i :
  fixed_zone c tza → - msPerDay <= tza <= msPerDay →
  printableDay (Day (now c) - 36) = true →
  printableDay (Day (now c) + 1) = true →
  0 <= i < 35 →
  setDate c (setDate c (now c) (getDate c (now c) - 34))
            (getDate c (setDate c (now c) (getDate c (now c) - 34)) + i)
  = now c + (i - 34) * msPerDay.
Proof.
  intros Hz Htza Hlo%printableDay_spec Hhi%printableDay_spec Hi.
  pose proof (Day_near (now c) tza Htza).
  replace (getDate c (now c) - 34) with (getDate c (now c) + -34) by lia.
  rewrite (setDate_shift c tza (now c) (-34))
    by (done || (apply printableDay_spec; lia)).
  pose proof (Day_near (now c + -34 * msPerDay) tza Htza) as Hnear.
  rewrite Day_shift in Hnear.
  rewrite (setDate_shift c tza) by (done || (apply printableDay_spec; lia)).
  lia.
Qed.

(** In a zone of fixed offset [getDate] is the day of the month of the
    local date. *)
Lemma getDate_fixed c tza t :
  fixed_zone c tza → getDate c t = day (civilFromDay (Day (t + tza))).
Proof. intros Hz. unfold getDate, LocalTime. by rewrite Hz. Qed.

Local Opaque setDate getDate toISODate.

(** In a zone of fixed offset the calendar has 35 cells, for the 35 UTC
    days that end today, in order; a cell is checked exactly when its date
    is among the check-ins, and only the last cell is marked as today.  The
    number that a cell shows is the day of the month of the local date so
    many days before the local today: it is the day of the cell's own date
    only while the local date is the UTC date. *)
Theorem renderCalendar_last_35_days c tza checkedDates :
  fixed_zone c tza → - msPerDay <= tza <= msPerDay →
  printableDay (Day (now c) - 36) = true →
  printableDay (Day (now c) + 1) = true →
  length (renderCalendar c checkedDates) = 35%nat ∧
  ∀ (i : nat) cell,
    renderCalendar c checkedDates !! i = Some cell →
    isDateString (dateStr cell) = true ∧
    dayOf (dateStr cell) = Day (now c) - 34 + Z.of_nat i ∧
    dayLabel cell = day (civilFromDay (Day (now c + tza) - 34 + Z.of_nat i)) ∧
    (Day (now c + tza) = Day (now c) →
     dayLabel cell = day (civilFromDay (dayOf (dateStr cell)))) ∧
    (checked cell = true ↔ dateStr cell ∈ checkedDates) ∧
    (isToday cell = true ↔ i = 34%nat).
Proof.
  intros Hz Htza Hlo Hhi. unfold renderCalendar. split.
  { by rewrite length_fmap, length_seqZ. }
  intros i cell Hcell. rewrite list_lookup_fmap in Hcell.
  destruct (seqZ 0 35 !! i) as [j |] eqn:Hj; [| done].
  apply lookup_seqZ in Hj as [-> Hi].
  cbn [fmap option_fmap option_map] in Hcell. apply (inj Some) in Hcell as <-.
  cbn [dateStr dayLabel checked isToday].
  rewrite (calendar_date c tza (0 + Z.of_nat i)) by (done || lia).
  pose proof Hlo as Hlo'%printableDay_spec. pose proof Hhi as Hhi'%printableDay_spec.
  destruct (isDateString_toISODate (now c + (0 + Z.of_nat i - 34) * msPerDay))
    as [Hds Hday].
  { rewrite Day_shift. apply printableDay_spec. lia. }
  destruct (isDateString_toISODate (now c)) as [_ Hnow].
  { apply printableDay_spec. lia. }
  rewrite Day_shift in Hday.
  assert (getDate c (now c + (0 + Z.of_nat i - 34) * msPerDay)
          = day (civilFromDay (Day (now c + tza) - 34 + Z.of_nat i))) as Hlabel.
  { rewrite (getDate_fixed c tza) by done.
    replace (now c + (0 + Z.of_nat i - 34) * msPerDay + tza)
      with (now c + tza + (0 + Z.of_nat i - 34) * msPerDay) by lia.
    rewrite Day_shift. do 2 f_equal. lia. }
  split_and!; [done | lia | done | | apply bool_decide_eq_true |].
  { intros Hsame. rewrite Hlabel, Hday, Hsame. do 2 f_equal. lia. }
  rewrite bool_decide_eq_true. unfold getTodayString. split.
  - intros Heq. rewrite Heq, Hnow in Hday. lia.
  - intros ->. do 2 f_equal. lia.
Qed.

Local Transparent setDate getDate toISODate.

Lemma renderCalendar_last_35_days_witness :
  length (renderCalendar (clockAt 2024 3 1 20 32400000) ["2024-02-29"%string])
    = 35%nat ∧
  ∀ (i : nat) cell,
    renderCalendar (clockAt 2024 3 1 20 32400000) ["2024-02-29"%string] !! i
      = Some cell →
    isDateString (dateStr cell) = true ∧
    dayOf (dateStr cell)
      = Day (now (clockAt 2024 3 1 20 32400000)) - 34 + Z.of_nat i ∧
    dayLabel cell
      = day (civilFromDay
               (Day (now (clockAt 2024 3 1 20 32400000) + 32400000) - 34
                + Z.of_nat i)) ∧
    (Day (now (clockAt 2024 3 1 20 32400000) + 32400000)
       = Day (now (clockAt 2024 3 1 20 32400000)) →
     dayLabel cell = day (civilFromDay (dayOf (dateStr cell)))) ∧
    (checked cell = true ↔ dateStr cell ∈ ["2024-02-29"%string]) ∧
    (isToday cell = true ↔ i = 34%nat).
Proof.
  apply (renderCalendar_last_35_days _ 32400000).
  - intros t isUTC. reflexivity.
  - vm_compute. split; discriminate.
  - reflexivity.
  - reflexivity.
Defined.

(** Nine hours ahead of UTC at 20:00 UTC the local date is a day ahead:
    the cell of 29 February shows 1 and the cell of 1 March shows 2.  At
    noon UTC in a zone without offset the cells show the days of their
    dates. *)
Example calendar_cells :
  (λ cell, (dateStr cell, dayLabel cell, checked cell, isToday cell)) <$>
    drop 33 (renderCalendar (clockAt 2024 3 1 20 32400000) ["2024-02-29"%string])
  = [("2024-02-29"%string, 1, true, false); ("2024-03-01"%string, 2, false, true)] ∧
  (λ cell, (dateStr cell, dayLabel cell, checked cell, isToday cell)) <$>
    drop 33 (renderCalendar (utcNoon 2024 3 1) ["2024-02-29"%string])
  = [("2024-02-29"%string, 29, true, false); ("2024-03-01"%string, 1, false, true)].
Proof. vm_compute. done. Qed.

(** The check-in button is disabled by [updateDashboard] exactly when a
    click on it would be turned away as already checked in; the figures
    shown are the stored ones. *)
Theorem dashboard_button_matches_guard c app v :
  updateDashboard c app = Ok (Some v) →
  (∀ atSave signed,
     checkinBtnDisabled v = true ↔
     handleCheckIn c atSave signed app = (AlreadyCheckedIn, app)) ∧
  ∃ wallet r, currentWallet app = Some wallet ∧
              getUserData wallet (localStorage app) = Ok r ∧
              streakValue v = streak r ∧ totalValue v = total r ∧
              walletAddress v = formatAddress wallet.
Proof.
  unfold updateDashboard, handleCheckIn.
  destruct (currentWallet app) as [wallet |]; [| done].
  case_decide; [done |].
  destruct (getUserData wallet (localStorage app)) as [r |] eqn:Hget; [| done].
  simpl. intros [= <-]. cbn [checkinBtnDisabled streakValue totalValue walletAddress].
  split.
  2: { exists wallet, r. done. }
  intros atSave signed. case_bool_decide; [done |].
  split; [done |].
  destruct signed as [signature |]; [| done].
  case_decide; [done |]. by destruct (saveCheckIn _ _ _ _ _).
Qed.

Lemma dashboard_button_matches_guard_witness :
  (∀ atSave signed,
     checkinBtnDisabled
       (mkDashboard 0 0 "0xAbC...xAbC" "Not checked in yet" "Check In Now" false
          (renderCalendar (utcNoon 2024 3 1) [])) = true ↔
     handleCheckIn (utcNoon 2024 3 1) atSave signed (mkApp (Some "0xAbC"%string) None)
       = (AlreadyCheckedIn, mkApp (Some "0xAbC"%string) None)) ∧
  ∃ wallet r, currentWallet (mkApp (Some "0xAbC"%string) None) = Some wallet ∧
              getUserData wallet (localStorage (mkApp (Some "0xAbC"%string) None)) = Ok r ∧
              streakValue
                (mkDashboard 0 0 "0xAbC...xAbC" "Not checked in yet" "Check In Now"
                   false (renderCalendar (utcNoon 2024 3 1) [])) = streak r ∧
              totalValue
                (mkDashboard 0 0 "0xAbC...xAbC" "Not checked in yet" "Check In Now"
                   false (renderCalendar (utcNoon 2024 3 1) [])) = total r ∧
              walletAddress
                (mkDashboard 0 0 "0xAbC...xAbC" "Not checked in yet" "Check In Now"
                   false (renderCalendar (utcNoon 2024 3 1) [])) = formatAddress wallet.
Proof.
  apply (dashboard_button_matches_guard (utcNoon 2024 3 1)). reflexivity.
Defined.



End ViewFacts.

(** ** The profile *)

Section ProfileFacts.

Lemma getUserData_same_key w w' item :
  toLowerCase w' = toLowerCase w → getUserData w' item = getUserData w item.
Proof. intros Hw. unfold getUserData. by rewrite Hw. Qed.

(** The profile of a wallet shows what the dashboard of that wallet shows:
    the same streak, the same total and the same calendar, under any
    spelling of the address in the link; and it shows the address as the
    link spells it. *)
Theorem profile_agrees_with_dashboard c wallet profileUser item d :
  toLowerCase profileUser = toLowerCase wallet →
  updateDashboard c {| currentWallet := Some wallet; localStorage := item |}
    = Ok (Some d) →
  ∃ p, showProfileScreen c profileUser item = Ok p ∧
       profileWallet p = profileUser ∧
       profileStreak p = streakValue d ∧
       profileTotal p = totalValue d ∧
       profileCalendar p = calendarGrid d.
Proof.
  intros Hw. unfold updateDashboard, showProfileScreen. simpl.
  case_decide; [done |].
  rewrite (getUserData_same_key wallet profileUser) by done.
  destruct (getUserData wallet item) as [r | e]; [| done]. simpl.
  intros [= <-]. by eexists.
Qed.

(** After a check-in the profile of the wallet names the date of that
    check-in as the last one, and a wallet without a record has the
    profile of a newcomer: no streak, no total, never checked in. *)
Theorem profile_last_date c c0 wallet date signature item0 item profileUser :
  saveCheckIn c0 wallet date signature item0 = Ok item →
  date ≠ EmptyString →
  (toLowerCase profileUser = toLowerCase wallet →
   ∃ p, showProfileScreen c profileUser item = Ok p ∧
        profileLastDate p = date ∧ (0 < profileTotal p)%nat) ∧
  (toLowerCase profileUser ≠ toLowerCase wallet →
   getUserData profileUser item0 = Ok defaultUserData →
   ∃ p, showProfileScreen c profileUser item = Ok p ∧
        profileLastDate p = "Never"%string ∧ profileTotal p = 0%nat ∧
        profileStreak p = 0%nat).
Proof.
  intros Hsave Hne. split.
  - intros Hw.
    destruct (getUserData_saved _ _ _ _ _ _ profileUser Hsave Hw)
      as (r1 & Hget & Hin & _ & _ & Ht).
    apply saveCheckIn_spec in Hsave as (allData & r & _ & -> & _ & _ & _ & Hl & _).
    rewrite getUserData_JsonText, Hw, lookup_insert_eq in Hget.
    injection Hget as ->.
    unfold showProfileScreen.
    rewrite getUserData_JsonText, Hw, lookup_insert_eq. simpl.
    eexists. split; [done |]. simpl. rewrite Hl, decide_False by done.
    split; [done |]. rewrite Ht. destruct (dates r1); [| simpl; lia].
    by apply elem_of_nil in Hin.
  - intros Hw Hget0.
    unfold showProfileScreen.
    rewrite (getUserData_other _ _ _ _ _ _ profileUser Hsave) by done.
    rewrite Hget0. simpl. by eexists.
Qed.

End ProfileFacts.

Lemma profile_agrees_with_dashboard_witness :
  ∃ p, showProfileScreen (utcNoon 2024 3 1) "0xABC"%string
         (Some (JsonText {[ "0xabc"%string :=
            mkUserData ["2024-03-01"%string] 1 1 (Some "2024-03-01"%string)
              {[ "2024-03-01"%string := "0x01"%string ]} ]})) = Ok p ∧
       profileWallet p = "0xABC"%string ∧
       profileStreak p = 1%nat ∧
       profileTotal p = 1%nat ∧
       profileCalendar p =
         renderCalendar (utcNoon 2024 3 1) ["2024-03-01"%string].
Proof.
  apply (profile_agrees_with_dashboard (utcNoon 2024 3 1) "0xAbC"%string
    "0xABC"%string
    (Some (JsonText {[ "0xabc"%string :=
            mkUserData ["2024-03-01"%string] 1 1 (Some "2024-03-01"%string)
              {[ "2024-03-01"%string := "0x01"%string ]} ]}))
    (mkDashboard 1 1 "0xAbC...xAbC"%string "Checked in today!"%string
       "Already Checked In"%string true
       (renderCalendar (utcNoon 2024 3 1) ["2024-03-01"%string]))).
  - reflexivity.
  - reflexivity.
Defined.

Lemma profile_last_date_witness :
  (∃ p, showProfileScreen (utcNoon 2024 3 9) "0xABC"%string
          (Some (JsonText {[ "0xabc"%string :=
             mkUserData ["2024-03-01"%string] 1 1 (Some "2024-03-01"%string)
               {[ "2024-03-01"%string := "0x01"%string ]} ]})) = Ok p ∧
        profileLastDate p = "2024-03-01"%string ∧ (0 < profileTotal p)%nat) ∧
  (∃ p, showProfileScreen (utcNoon 2024 3 9) "0xdef"%string
          (Some (JsonText {[ "0xabc"%string :=
             mkUserData ["2024-03-01"%string] 1 1 (Some "2024-03-01"%string)
               {[ "2024-03-01"%string := "0x01"%string ]} ]})) = Ok p ∧
        profileLastDate p = "Never"%string ∧ profileTotal p = 0%nat ∧
        profileStreak p = 0%nat).
Proof.
  split.
  - apply (profile_last_date (utcNoon 2024 3 9) (utcNoon 2024 3 1) "0xAbC"%string
      "2024-03-01"%string "0x01"%string None
      (Some (JsonText {[ "0xabc"%string :=
             mkUserData ["2024-03-01"%string] 1 1 (Some "2024-03-01"%string)
               {[ "2024-03-01"%string := "0x01"%string ]} ]}))
      "0xABC"%string); [vm_compute; reflexivity | discriminate | reflexivity].
  - apply (profile_last_date (utcNoon 2024 3 9) (utcNoon 2024 3 1) "0xAbC"%string
      "2024-03-01"%string "0x01"%string None
      (Some (JsonText {[ "0xabc"%string :=
             mkUserData ["2024-03-01"%string] 1 1 (Some "2024-03-01"%string)
               {[ "2024-03-01"%string := "0x01"%string ]} ]}))
      "0xdef"%string); [vm_compute; reflexivity | discriminate | by_compute | reflexivity].
Defined.

(** ** The session *)

Section SessionFacts.

Context {Provider : Type}.

Implicit Types (s : Session Provider) (w : Window Provider).

Lemma showDashboard_fst c s :
  (showDashboard c s).1 = showScreen DashboardScreen s.
Proof. unfold showDashboard. by destruct (updateDashboard _ _). Qed.

Lemma showDashboard_snd c s :
  (showDashboard c s).2 = None ↔ ∃ d, updateDashboard c (pageApp s) = Ok d.
Proof.
  unfold showDashboard. simpl.
  destruct (updateDashboard c (pageApp s)) as [d | e]; simpl; split; try done.
  - by exists d.
  - by intros [d ?].
Qed.





Lemma showProfileScreen_readable c u item :
  item ≠ Some BadText → item ≠ Some NullText →
  ∃ p, showProfileScreen c u item = Ok p.
Proof.
  intros Hok Hobj. unfold showProfileScreen.
  destruct (getUserData_total u _ Hok Hobj) as [r ->]. by eexists.
Qed.

Lemma showProfileScreen_corrupt c u :
  showProfileScreen c u (Some BadText) = Throw SyntaxError ∧
  showProfileScreen c u (Some NullText) = Throw TypeError.
Proof. done. Qed.

(** Splits the outcome of [showDashboard] into its two components. *)
Ltac dashboard c s :=
  let Hs := fresh "Hshown" in
  let He := fresh "Hthrown" in
  pose proof (showDashboard_fst c s) as Hs;
  pose proof (showDashboard_snd c s) as He;
  destruct (showDashboard c s) as [? [?|]]; simpl in Hs, He; subst.

(** Loading the page, connecting and disconnecting never write the
    check-in ledger: the item of [STORAGE_KEY] is after each of them what
    it was before. *)
Theorem session_keeps_ledger c w context accounts s :
  localStorage (pageApp (init c w context s)) = localStorage (pageApp s) ∧
  localStorage (pageApp (handleConnect c w context accounts s).2)
    = localStorage (pageApp s) ∧
  localStorage (pageApp (handleDisconnect s)) = localStorage (pageApp s).
Proof.
  split_and!; [| | done].
  - unfold init.
    destruct (truthy (get "user" (searchParams w))) as [u |].
    { by destruct (showProfileScreen _ _ _). }
    destruct (truthy (connected_wallet s)) as [saved |].
    { match goal with |- context [showDashboard c ?s1] => dashboard c s1 end; done. }
    match goal with |- context [match ?a with Some _ => _ | None => showScreen _ _ end] =>
      destruct a as [address |]; [| done] end.
    match goal with |- context [showDashboard c ?s1] => dashboard c s1 end; done.
  - unfold handleConnect.
    match goal with |- context [match ?a with Some _ => _ | None => match getProvider _ _ with _ => _ end end] =>
      destruct a as [address |] end.
    + destruct (getProvider _ w) as [p | e]; [| done].
      match goal with |- context [showDashboard c ?s1] => dashboard c s1 end; done.
    + destruct (getProvider _ w) as [p | e]; [| done].
      destruct accounts as [[| account l] | e]; try done.
      match goal with |- context [showDashboard c ?s1] => dashboard c s1 end; done.
Qed.





(** After a disconnection the ledger is still there and a click on the
    check-in button does nothing.  The page loaded again outside a frame,
    or without a context of the host, has no current wallet and no saved
    wallet and does not show the dashboard: it shows the connect screen,
    unless the link carries the parameter [user], which asks for a
    profile. *)
Theorem disconnect_forgets_wallet s :
  localStorage (pageApp (handleDisconnect s)) = localStorage (pageApp s) ∧
  (∀ atClick atSave signed,
     handleCheckIn atClick atSave signed (pageApp (handleDisconnect s))
       = (NotConnected, pageApp (handleDisconnect s))) ∧
  (∀ c w context scr,
     detectFarcasterFrame w = false ∨ context = None →
     currentWallet (pageApp (init c w context (reload scr (handleDisconnect s))))
       = None ∧
     connected_wallet (init c w context (reload scr (handleDisconnect s))) = None ∧
     screen (init c w context (reload scr (handleDisconnect s))) ≠ DashboardScreen ∧
     (truthy (get "user" (searchParams w)) = None →
      screen (init c w context (reload scr (handleDisconnect s))) = ConnectScreen)).
Proof.
  split_and!; [done | done |].
  intros c w context scr Hout. unfold init.
  destruct (truthy (get "user" (searchParams w))) as [profileUser |].
  { by destruct (showProfileScreen _ _ _). }
  simpl. destruct Hout as [-> | ->]; [done |].
  by destruct (detectFarcasterFrame w).
Qed.

(** In a browser of its own without an injected wallet a click on the
    connect button changes nothing and asks to install a wallet; and that
    is the only case in which this text is shown. *)
Theorem handleConnect_without_wallet c w context accounts s :
  (detectFarcasterFrame w = false → ethereum w = None →
   handleConnect c w context accounts s = (Some InstallToContinue, s)) ∧
  (∀ s1, handleConnect c w context accounts s = (Some InstallToContinue, s1) →
         detectFarcasterFrame w = false ∧ ethereum w = None).
Proof.
  split.
  - intros Hout Hnone. unfold handleConnect, getProvider. by rewrite Hout, Hnone.
  - intros s1. unfold handleConnect.
    assert (∀ e s', (Some (match ethereum w with
                | None => if detectFarcasterFrame w then MessageOf e
                          else InstallToContinue
                | Some _ => MessageOf e
                end), s') = (Some InstallToContinue, s1) →
             detectFarcasterFrame w = false ∧ ethereum w = None) as Halert.
    { intros e s'. destruct (ethereum w); [done |].
      by destruct (detectFarcasterFrame w). }
    match goal with |- context [match ?a with Some _ => _ | None => match getProvider _ _ with _ => _ end end] =>
      destruct a as [address |] end.
    + destruct (getProvider _ w) as [p | e]; [| apply Halert].
      match goal with |- context [showDashboard c ?s'] =>
        destruct (showDashboard c s') as [s2 [e |]] end; [apply Halert | done].
    + destruct (getProvider _ w) as [p | e]; [| apply Halert].
      destruct accounts as [[| account l] | e]; [done | | apply Halert].
      match goal with |- context [showDashboard c ?s'] =>
        destruct (showDashboard c s') as [s2 [e |]] end; [apply Halert | done].
Qed.

(** A page opened with the parameter [user] only shows: it leaves the
    wallet, the saved session, the provider and the ledger as they were.
    It shows the profile when the ledger can be read and the parameter is
    not, in lower case, a name that the stored object inherits; it shows
    the connect screen when the ledger is a text that does not parse or
    the text [null]. *)
Theorem profile_mode_is_read_only c w context s profileUser :
  truthy (get "user" (searchParams w)) = Some profileUser →
  pageApp (init c w context s) = pageApp s ∧
  connected_wallet (init c w context s) = connected_wallet s ∧
  currentProvider (init c w context s) = currentProvider s ∧
  isConnected (init c w context s) = isConnected s ∧
  (inheritedName (toLowerCase profileUser) = false →
   localStorage (pageApp s) ≠ Some BadText →
   localStorage (pageApp s) ≠ Some NullText →
   screen (init c w context s) = ProfileScreen) ∧
  (localStorage (pageApp s) = Some BadText ∨
   localStorage (pageApp s) = Some NullText →
   screen (init c w context s) = ConnectScreen).
Proof.
  intros Hprofile. unfold init. rewrite Hprofile.
  destruct (showProfileScreen c profileUser (localStorage (pageApp s)))
    as [p | e] eqn:Hshow; split_and!; try done.
  - intros [Hbad | Hnull].
    + by rewrite Hbad in Hshow.
    + by rewrite Hnull in Hshow.
  - intros _ Hok Hobj.
    destruct (showProfileScreen_readable c profileUser _ Hok Hobj) as [p Hp].
    congruence.
Qed.

End SessionFacts.




Lemma disconnect_forgets_wallet_witness :
  let s1 :=
    handleDisconnect
      (mkSession (mkApp (Some "0xAbC"%string) None) (Some "0xAbC"%string)
         (Some "injected"%string) true DashboardScreen) in
  let s2 :=
    init (utcNoon 2024 3 1)
      (mkWindow TopIsSelf [] (Some "injected"%string) (SdkLoaded None)) None
      (reload DashboardScreen s1) in
  let s3 :=
    init (utcNoon 2024 3 1)
      (mkWindow TopIsSelf [("user", "0xdef")]%string (Some "injected"%string)
         (SdkLoaded None)) None
      (reload DashboardScreen s1) in
  (currentWallet (pageApp s2) = None ∧ connected_wallet s2 = None ∧
   screen s2 = ConnectScreen) ∧
  (currentWallet (pageApp s3) = None ∧ connected_wallet s3 = None ∧
   screen s3 ≠ DashboardScreen).
Proof.
  split.
  - destruct (proj2 (proj2 (disconnect_forgets_wallet
      (mkSession (mkApp (Some "0xAbC"%string) None) (Some "0xAbC"%string)
         (Some "injected"%string) true DashboardScreen)))
      (utcNoon 2024 3 1)
      (mkWindow TopIsSelf [] (Some "injected"%string) (SdkLoaded None)) None
      DashboardScreen (or_introl eq_refl)) as (Hwallet & Hsaved & _ & Hscreen).
    split_and!; [exact Hwallet | exact Hsaved | exact (Hscreen eq_refl)].
  - destruct (proj2 (proj2 (disconnect_forgets_wallet
      (mkSession (mkApp (Some "0xAbC"%string) None) (Some "0xAbC"%string)
         (Some "injected"%string) true DashboardScreen)))
      (utcNoon 2024 3 1)
      (mkWindow TopIsSelf [("user", "0xdef")]%string (Some "injected"%string)
         (SdkLoaded None)) None
      DashboardScreen (or_introl eq_refl)) as (Hwallet & Hsaved & Hscreen & _).
    split_and!; [exact Hwallet | exact Hsaved | exact Hscreen].
Defined.

Lemma handleConnect_without_wallet_witness :
  handleConnect (utcNoon 2024 3 1)
    (mkWindow (Provider := string) TopIsSelf [] None (SdkLoaded None)) None
    (Ok ["0xAbC"%string])
    (mkSession (mkApp None None) None None false ConnectScreen)
  = (Some InstallToContinue,
     mkSession (mkApp None None) None None false ConnectScreen).
Proof.
  apply (proj1 (handleConnect_without_wallet _ _ _ _ _)); reflexivity.
Defined.

Lemma profile_mode_is_read_only_witness :
  let s :=
    mkSession (Provider := string) (mkApp None None) (Some "0xAbC"%string) None
      false ConnectScreen in
  let s1 :=
    init (utcNoon 2024 3 1)
      (mkWindow TopIsSelf [("user", "0xdef")]%string None (SdkLoaded None)) None s in
  pageApp s1 = pageApp s ∧
  connected_wallet s1 = connected_wallet s ∧
  currentProvider s1 = currentProvider s ∧
  isConnected s1 = isConnected s ∧
  screen s1 = ProfileScreen.
Proof.
  destruct (profile_mode_is_read_only (utcNoon 2024 3 1)
    (mkWindow TopIsSelf [("user", "0xdef")]%string None (SdkLoaded None)) None
    (mkSession (Provider := string) (mkApp None None) (Some "0xAbC"%string) None
       false ConnectScreen) "0xdef"%string eq_refl)
    as (Happ & Hsaved & Hprovider & Hflag & Hshown & _).
  split_and!; [exact Happ | exact Hsaved | exact Hprovider | exact Hflag |].
  apply Hshown; [reflexivity | discriminate | discriminate].
Defined.

(** A full visit: the page is loaded in a browser with an injected wallet,
    the wallet is connected, a check-in is signed, and the page is loaded
    again the next day. *)
Example a_visit :
  let w := mkWindow TopIsSelf [] (Some "injected"%string) (SdkLoaded None) in
  let s0 := init (utcNoon 2024 3 1) w None
              (mkSession (mkApp None None) None None false ConnectScreen) in
  let s1 := (handleConnect (utcNoon 2024 3 1) w None (Ok ["0xAbC"%string]) s0).2 in
  let app2 := (handleCheckIn (utcNoon 2024 3 1) (utcNoon 2024 3 1)
                 (Some "0x01"%string) (pageApp s1)).2 in
  let s3 := init (utcNoon 2024 3 2) w None
              (reload ConnectScreen
                 (mkSession app2 (connected_wallet s1) (currentProvider s1)
                    (isConnected s1) (screen s1))) in
  screen s0 = ConnectScreen ∧
  screen s1 = DashboardScreen ∧
  screen s3 = DashboardScreen ∧
  match updateDashboard (utcNoon 2024 3 1) app2 with
  | Ok (Some d) => checkinBtnDisabled d = true ∧ streakValue d = 1%nat
  | _ => False
  end ∧
  match updateDashboard (utcNoon 2024 3 2) (pageApp s3) with
  | Ok (Some d) => checkinBtnDisabled d = false ∧ streakValue d = 1%nat
  | _ => False
  end.
Proof. vm_compute. done. Qed.

(** ** The provider and the frame detection *)

Section MoreProviderFacts.

Context {Provider : Type}.

Implicit Types (w : Window Provider).

(** [getProvider] hands out only what the window offers, the injected
    wallet or, inside a frame, the wallet of the SDK, and it fails only
    when the window offers neither. *)
Theorem getProvider_only_offered inFrame w :
  (∀ p, getProvider inFrame w = Ok p →
        ethereum w = Some p ∨
        (inFrame = true ∧
         ∃ sdk wl, loadedSdk w = SdkLoaded (Some sdk) ∧ wallet sdk = Some wl ∧
                   ethProvider wl = Some p)) ∧
  (∀ e, getProvider inFrame w = Throw e →
        ethereum w = None ∧ getFarcasterProvider inFrame w = None).
Proof.
  unfold getProvider. destruct inFrame; simpl.
  - destruct (getFarcasterProvider true w) as [bridge |] eqn:Hbridge.
    + split; [| done]. intros p [= <-]. right. split; [done |].
      by apply getFarcasterProvider_Some.
    + destruct (ethereum w) as [injected |]; split; try done.
      intros p [= <-]. by left.
  - destruct (ethereum w) as [injected |]; split; try done.
    intros p [= <-]. by left.
Qed.

(** The two detections of the two revisions agree on every window without
    the parameters [fc_frame] and [fid] on which the SDK gives no
    definite answer of its own; a definite answer of the SDK settles the
    earlier one whatever the window is. *)
Theorem detections_agree w :
  (has "fc_frame" (searchParams w) = false → has "fid" (searchParams w) = false →
   (∀ sdk b, loadedSdk w = SdkLoaded (Some sdk) →
             isInMiniApp sdk ≠ Some (QueryAnswers b)) →
   detectMiniApp w = detectFarcasterFrame w) ∧
  (∀ sdk b, loadedSdk w = SdkLoaded (Some sdk) →
            isInMiniApp sdk = Some (QueryAnswers b) → detectMiniApp w = b).
Proof.
  unfold detectMiniApp, detectFarcasterFrame. split.
  - intros -> -> Hno.
    destruct (loadedSdk w) as [| [sdk |]]; try by destruct (top w).
    destruct (isInMiniApp sdk) as [[| | b] |] eqn:Hq; try by destruct (top w).
    by destruct (Hno sdk b).
  - by intros sdk b -> ->.
Qed.

End MoreProviderFacts.

Lemma getProvider_only_offered_witness :
  ("bridge"%string = "injected"%string ∨
   (true = true ∧
    ∃ sdk wl,
      SdkLoaded (Some (mkSdk None (Some (mkWallet (Some "bridge"%string)))))
        = SdkLoaded (Some sdk) ∧
      wallet sdk = Some wl ∧ ethProvider wl = Some "bridge"%string)) ∧
  getFarcasterProvider true
    (mkWindow (Provider := string) TopIsOther [] None SdkThrows) = None.
Proof.
  split.
  - destruct (proj1 (getProvider_only_offered true
      (mkWindow TopIsOther [] (Some "injected"%string)
         (SdkLoaded (Some (mkSdk None (Some (mkWallet (Some "bridge"%string))))))))
      "bridge"%string eq_refl) as [[=] | H].
    right. exact H.
  - apply (proj2 (getProvider_only_offered true
      (mkWindow (Provider := string) TopIsOther [] None SdkThrows))
      (ErrorMsg noWalletMessage) eq_refl).
Defined.

Lemma detections_agree_witness :
  detectMiniApp
    (mkWindow (Provider := string) TopIsOther [] None
       (SdkLoaded (Some (mkSdk (Some QueryTimesOut) None))))
  = detectFarcasterFrame
      (mkWindow (Provider := string) TopIsOther [] None
         (SdkLoaded (Some (mkSdk (Some QueryTimesOut) None)))) ∧
  detectMiniApp
    (mkWindow (Provider := string) TopIsOther [] None
       (SdkLoaded (Some (mkSdk (Some (QueryAnswers false)) None))))
  = false.
Proof.
  split.
  - apply (proj1 (detections_agree _)); [reflexivity | reflexivity |].
    intros sdk b [= <-]. discriminate.
  - by eapply (proj2 (detections_agree _)).
Defined.
